(** * Session-analysis pipeline: metric engine, fallback analyser, report fusion

    A shallow embedding of the numeric and structural core of the analysis
    package ([analysis/audio_analysis.py], [analysis/transcript_analysis.py],
    [analysis/video_analysis.py], [analysis/pipeline.py]) and of the
    step-window slicing of [app.py].

    Conventions of the embedding.
    - Python floats are read at two levels.  Where a statement is about
      ranges, signs or order, they are exact rationals ([Q]) and
      [round(x, 2)] is rounding to the nearest hundredth, ties to even
      (modules [Audio], [Transcript], [Video]).  Where a statement depends on
      the digits a float computation reports, or on which side of a threshold
      it falls, they are IEEE 754 binary64 numbers: module [F64] rounds every
      operation to the nearest double, ties to even, and the functions
      concerned ([Audio64], the percentages of [Stepwise], the confidence of
      [Pipeline], [Duration]) compute with it.
    - Python integers that count things are [nat].
    - A [dict] is an association list in insertion order with unique keys;
      [d.get(k, dflt)] is [dict_get].
    - Text is an ASCII [string]; [str.lower] maps [A-Z] to [a-z],
      [str.split()] cuts at runs of ASCII white space.
    - An exception is a [None] (or an [inl]) result. *)

From Stdlib Require Import String Ascii DecimalString.
From Stdlib Require Import QArith Qround Qabs Qminmax Qpower ZArith Bool Arith List Lia Lqa.
From Stdlib Require Qcanon.
Import ListNotations.

Local Open Scope Q_scope.

(** ** Numbers *)

Module Num.

(** [a < b] as a boolean, the way Python evaluates a comparison. *)
Definition Qltb (a b : Q) : bool := negb (Qle_bool b a).

Definition Qeqb (a b : Q) : bool := Qeq_bool a b.

(** Python's [min(a, b)]: [b] when [b < a], else [a]. *)
Definition py_min (a b : Q) : Q := if Qltb b a then b else a.

(** Python's [max(a, b)]: [b] when [b > a], else [a]. *)
Definition py_max (a b : Q) : Q := if Qltb a b then b else a.

(** Nearest integer, ties to the even neighbour. *)
Definition round_half_even (y : Q) : Z :=
  let n := Qfloor y in
  let r := y - inject_Z n in
  if Qltb r (1#2) then n
  else if Qltb (1#2) r then (n + 1)%Z
  else if Z.even n then n else (n + 1)%Z.

(** [round(x, 2)]. *)
Definition round2 (x : Q) : Q := inject_Z (round_half_even (x * 100)) / 100.

Definition Qsum (l : list Q) : Q := fold_left Qplus l 0.

(** [np.mean] of a non-empty list. *)
Definition np_mean (l : list Q) : Q := Qsum l / inject_Z (Z.of_nat (length l)).

Definition Qnat (n : nat) : Q := inject_Z (Z.of_nat n).

End Num.
Import Num.

(** ** Binary64 floats *)

Module F64.

(** A double is a rational [M * 2^k] with [|M| <= 2^53] and [k >= -1074].
    Every operation of Python on floats returns the double nearest to the
    exact result, ties to the even mantissa.  Results stay finite here: no
    computation below comes near the largest double (about 1.8e308). *)

(** [2^k] *)
Definition pow2 (k : Z) : Q := 2 ^ k.

(** The integer part of [log2 |x|], for [x] other than 0. *)
Definition binade (x : Q) : Z :=
  let e := (Z.log2 (Z.abs (Qnum x)) - Z.log2 (Zpos (Qden x)))%Z in
  if Qle_bool (pow2 e) (Qabs x) then e else (e - 1)%Z.

(** The exponent of the last place of the doubles around [x]: 52 below the
    binade, and -1074 for the subnormal numbers. *)
Definition ulp_exp (x : Q) : Z := Z.max (binade x - 52) (-1074).

(** The double nearest to [x], ties to even, as a fraction in lowest terms. *)
Definition rnd (x : Q) : Q :=
  let k := ulp_exp x in
  Qred (inject_Z (round_half_even (x / pow2 k)) * pow2 k).

(** A number as Python reads it into a float: a literal, a JSON number, a
    float handed over by a library. *)
Definition lit (q : Q) : Q := rnd q.

(** [float(n)] for an integer, as in mixed arithmetic. *)
Definition of_int (z : Z) : Q := rnd (inject_Z z).
Definition of_nat (n : nat) : Q := rnd (Qnat n).

(** [a + b], [a - b], [a * b], [a / b] on floats. *)
Definition add (a b : Q) : Q := rnd (a + b).
Definition sub (a b : Q) : Q := rnd (a - b).
Definition mul (a b : Q) : Q := rnd (a * b).
Definition div (a b : Q) : Q := rnd (a / b).

(** [a / b] on integers: the double nearest to the exact quotient. *)
Definition div_nat (a b : nat) : Q := rnd (Qnat a / Qnat b).

(** [round(x, 2)] on a float: the exact value of [x] rounded to two decimals,
    ties to even, then the double nearest to that decimal. *)
Definition round2 (x : Q) : Q := rnd (Num.round2 x).

End F64.

(** ** Text: [str.lower] and [str.split] *)

Module Text.

Definition lower_char (c : ascii) : ascii :=
  let n := nat_of_ascii c in
  if (65 <=? n)%nat && (n <=? 90)%nat then ascii_of_nat (n + 32) else c.

Fixpoint lower (s : string) : string :=
  match s with
  | EmptyString => EmptyString
  | String c r => String (lower_char c) (lower r)
  end.

(** ASCII white space as [str.split()] sees it: tab, line feed, vertical tab,
    form feed, carriage return, the four separators 28..31 and the blank. *)
Definition is_space (c : ascii) : bool :=
  let n := nat_of_ascii c in
  ((9 <=? n)%nat && (n <=? 13)%nat) || ((28 <=? n)%nat && (n <=? 32)%nat).

Definition is_empty (s : string) : bool :=
  match s with EmptyString => true | _ => false end.

(** [split_from cur s]: [cur] is the token read so far. *)
Fixpoint split_from (cur : string) (s : string) : list string :=
  match s with
  | EmptyString => if is_empty cur then [] else [cur]
  | String c r =>
      if is_space c then
        if is_empty cur then split_from EmptyString r
        else cur :: split_from EmptyString r
      else split_from (cur ++ String c EmptyString) r
  end.

(** [s.split()] *)
Definition split (s : string) : list string := split_from EmptyString s.

(** [text.lower().split()] *)
Definition words_of (text : string) : list string := split (lower text).

(** [w in keywords] *)
Definition str_in (w : string) (keywords : list string) : bool :=
  existsb (String.eqb w) keywords.

(** [needle in haystack] on strings: substring test. *)
Fixpoint is_prefix (p s : string) : bool :=
  match p, s with
  | EmptyString, _ => true
  | String a p', String b s' => Ascii.eqb a b && is_prefix p' s'
  | String _ _, EmptyString => false
  end.

Fixpoint contains (needle hay : string) : bool :=
  is_prefix needle hay ||
  match hay with
  | EmptyString => false
  | String _ r => contains needle r
  end.

Fixpoint has_space (s : string) : bool :=
  match s with
  | EmptyString => false
  | String c r => is_space c || has_space r
  end.

End Text.

(** ** Python values, as far as JSON carries them *)

Module Py.

#[warnings="-register-all"]
Inductive pyval : Type :=
| PNone
| PBool (b : bool)
| PInt (z : Z)
| PFloat (q : Q)
| PStr (s : string)
| PList (l : list pyval)
| PDict (d : list (string * pyval)).

Definition dict : Type := list (string * pyval).

(** [d[k]], [None] standing for [KeyError]. *)
Fixpoint dict_lookup (k : string) (d : dict) : option pyval :=
  match d with
  | [] => None
  | (k', v) :: r => if String.eqb k k' then Some v else dict_lookup k r
  end.

(** [d.get(k, dflt)] *)
Definition dict_get (k : string) (dflt : pyval) (d : dict) : pyval :=
  match dict_lookup k d with Some v => v | None => dflt end.

Definition has_key (k : string) (d : dict) : bool :=
  match dict_lookup k d with Some _ => true | None => false end.

(** [list(d.values())] *)
Definition dict_values (d : dict) : list pyval := map snd d.

(** A value used as a number in arithmetic; [None] stands for [TypeError]. *)
Definition as_number (v : pyval) : option Q :=
  match v with
  | PInt z => Some (inject_Z z)
  | PFloat q => Some q
  | PBool b => Some (if b then 1 else 0)
  | _ => None
  end.

(** [v[k]] with a string key: only a dict can answer. *)
Definition subscript_key (v : pyval) (k : string) : option pyval :=
  match v with
  | PDict d => dict_lookup k d
  | _ => None
  end.

(** [v[0]]: first item of a list, first character of a string; a dict with
    string keys has no key [0]; anything else is not subscriptable. *)
Definition subscript_0 (v : pyval) : option pyval :=
  match v with
  | PList (x :: _) => Some x
  | PStr (String c _) => Some (PStr (String c EmptyString))
  | _ => None
  end.

Definition bind {A B : Type} (o : option A) (f : A -> option B) : option B :=
  match o with Some a => f a | None => None end.

End Py.

Notation "x <- c ;; k" := (Py.bind c (fun x => k))
  (at level 61, c at next level, right associativity).

(** ** Segments of the transcription *)

Record Segment := mkSegment {
  seg_start : Q;
  seg_end : Q;
  seg_no_speech_prob : option Q
}.

Definition seg0 : Segment := mkSegment 0 0 None.

Module Audio.

(** *** [calculate_pause_metrics] *)

Record PauseData := mkPauseData {
  pause_frequency : nat;
  average_pause_duration : Q;
  long_pauses : nat
}.

(** State of the loop: the list [pauses] and the counter [long_pauses]. *)
Definition pause_state : Type := (list Q * nat)%type.

(** [gap = segments[i]["start"] - segments[i-1]["end"]]; the loop runs over
    [range(1, len(segments))], so both indices are in range. *)
Definition gap_at (segments : list Segment) (i : nat) : Q :=
  seg_start (nth i segments seg0) - seg_end (nth (i - 1) segments seg0).

Definition pause_step (st : pause_state) (gap : Q) : pause_state :=
  let '(pauses, long) := st in
  if Qltb (1#2) gap then
    (pauses ++ [gap], if Qltb 2 gap then S long else long)
  else (pauses, long).

Definition pause_loop (segments : list Segment) : pause_state :=
  fold_left (fun st i => pause_step st (gap_at segments i))
            (seq 1 (length segments - 1)) ([], 0%nat).

Definition calculate_pause_metrics (segments : list Segment) : PauseData :=
  let '(pauses, long) := pause_loop segments in
  {| pause_frequency := length pauses;
     average_pause_duration :=
       match pauses with [] => 0 | _ => round2 (np_mean pauses) end;
     long_pauses := long |}.

(** The gaps between adjacent segments, by recursion on the list. *)
Fixpoint gaps (segments : list Segment) : list Q :=
  match segments with
  | a :: (b :: _) as tl => (seg_start b - seg_end a) :: gaps tl
  | _ => []
  end.

(** How many entries of [l] exceed [thr]. *)
Definition count_gt (thr : Q) (l : list Q) : nat :=
  length (filter (fun g => Qltb thr g) l).


(** *** [calculate_speech_rate] *)

(** [speaking_time], the running sum of [seg["end"] - seg["start"]]. *)
Definition speaking_time (segments : list Segment) : Q :=
  fold_left (fun acc seg => acc + (seg_end seg - seg_start seg)) segments 0.

Definition calculate_speech_rate (segments : list Segment) (word_count : nat) : Q :=
  match segments with
  | [] => 0
  | _ =>
    if (word_count =? 0)%nat then 0
    else
      let t := speaking_time segments in
      if Qeqb t 0 then 0
      else round2 ((Qnat word_count / t) * 60)
  end.

(** *** [calculate_fluency_score] *)

Definition calculate_fluency_score
    (filler_count word_count long_pauses pause_frequency : nat) : Q :=
  if (word_count =? 0)%nat then 0
  else
    let filler_penalty := (Qnat filler_count / Qnat word_count) * 100 in
    let pause_penalty := Qnat (long_pauses * 5) in
    let pause_rate_penalty := py_min 30 (Qnat (pause_frequency * 2)) in
    let fluency := 100 - filler_penalty - pause_penalty - pause_rate_penalty in
    let fluency := py_max 0 (py_min 100 fluency) in
    round2 fluency.

(** *** [detect_vocal_tremor] *)

(** [np.diff] *)
Fixpoint np_diff (l : list Q) : list Q :=
  match l with
  | a :: (b :: _) as tl => (b - a) :: np_diff tl
  | _ => []
  end.

Definition is_pos (x : Q) : bool := Qltb 0 x.

(** One turn of the loop over [range(1, len(pitch_diffs))]. *)
Definition tremor_step (pitch_diffs : list Q) (changes : nat) (i : nat) : nat :=
  if xorb (is_pos (nth i pitch_diffs 0)) (is_pos (nth (i - 1) pitch_diffs 0))
  then S changes else changes.

Definition direction_changes (pitch_diffs : list Q) : nat :=
  fold_left (tremor_step pitch_diffs) (seq 1 (length pitch_diffs - 1)) 0%nat.

Definition detect_vocal_tremor (pitch_values : list Q) : bool :=
  match pitch_values with
  | [] => false
  | _ =>
    if (length pitch_values <? 10)%nat then false
    else
      let pitch_diffs := np_diff pitch_values in
      let tremor_ratio :=
        Qnat (direction_changes pitch_diffs) / Qnat (length pitch_diffs) in
      Qltb (6#10) tremor_ratio
  end.


(** *** Acoustic features *)

(** What numpy hands back for a float division: a finite value, an infinity
    or not-a-number (division by zero warns, it does not raise). *)
Inductive npfloat : Type :=
| Fin (q : Q)
| PosInf
| NegInf
| NaN.

Definition np_div (a b : Q) : npfloat :=
  if Qeqb b 0 then
    if Qeqb a 0 then NaN else if Qltb 0 a then PosInf else NegInf
  else Fin (a / b).

(** [100 - x * 100] *)
Definition hundred_minus_pct (x : npfloat) : npfloat :=
  match x with
  | Fin q => Fin (100 - q * 100)
  | PosInf => NegInf
  | NegInf => PosInf
  | NaN => NaN
  end.

Definition np_round2 (x : npfloat) : npfloat :=
  match x with Fin q => Fin (round2 q) | _ => x end.

(** [x < c] and [x > c] against a finite constant; every comparison with
    not-a-number is false. *)
Definition np_lt (x : npfloat) (c : Q) : bool :=
  match x with Fin q => Qltb q c | NegInf => true | _ => false end.
Definition np_gt (x : npfloat) (c : Q) : bool :=
  match x with Fin q => Qltb c q | PosInf => true | _ => false end.

(** [min(100, x)] and [max(0, x)], the first argument kept unless the second
    compares strictly better. *)
Definition min_100 (x : npfloat) : npfloat := if np_lt x 100 then x else Fin 100.
Definition max_0 (x : npfloat) : npfloat := if np_gt x 0 then x else Fin 0.

Section Acoustic.

(** [np.std], a square root the rationals do not have: taken as given. *)
Variable np_std : list Q -> Q.

Definition volume_stability_raw (rms : list Q) : npfloat :=
  match rms with
  | [] => Fin 0
  | _ => np_round2 (hundred_minus_pct (np_div (np_std rms) (np_mean rms)))
  end.

(** [max(0, min(100, volume_stability))] *)
Definition volume_stability (rms : list Q) : npfloat :=
  max_0 (min_100 (volume_stability_raw rms)).

Definition calculate_stress_score (pitch_values rms_values : list Q) : Q :=
  match pitch_values, rms_values with
  | [], _ | _, [] => 50
  | _, _ =>
    let pitch_std := np_std pitch_values in
    let pitch_score := py_min 100 ((pitch_std / 50) * 100) in
    let rms_std := np_std rms_values in
    let rms_mean := np_mean rms_values in
    let energy_score :=
      if Qltb 0 rms_mean then py_min 100 ((rms_std / rms_mean) * 100) else 0 in
    round2 (pitch_score * (6#10) + energy_score * (4#10))
  end.

Record AcousticFeatures := mkAcoustic {
  pitch_variability : Q;
  ac_volume_stability : npfloat;
  voice_stress_indicator : Q;
  vocal_tremor_detected : bool
}.

(** [extract_acoustic_features], from the pitch track (the pitch at the
    strongest bin of each frame) and the RMS energy that librosa returns. *)
Definition extract_acoustic_features (pitch_track rms : list Q) : AcousticFeatures :=
  let pitch_values := filter (fun p => Qltb 0 p) pitch_track in
  {| pitch_variability :=
       match pitch_values with [] => 0 | _ => round2 (np_std pitch_values) end;
     ac_volume_stability := volume_stability rms;
     voice_stress_indicator := calculate_stress_score pitch_values rms;
     vocal_tremor_detected := detect_vocal_tremor pitch_values |}.

Definition get_basic_acoustic_features : AcousticFeatures :=
  {| pitch_variability := 0;
     ac_volume_stability := Fin 75;
     voice_stress_indicator := 50;
     vocal_tremor_detected := false |}.

End Acoustic.

(** *** [analyze_audio] *)

Definition filler_words : list string :=
  ["um"; "uh"; "ah"; "like"; "you know"; "sort of"; "kind of"]%string.

(** The loop [for w in words: if w in filler_words: filler_count += 1]. *)
Definition count_fillers (words : list string) : nat :=
  fold_left (fun n w => if Text.str_in w filler_words then S n else n) words 0%nat.

Record AsrResult := mkAsr {
  asr_text : string;
  asr_segments : list Segment
}.

(** The surroundings of one call: the file system, the speech recogniser and
    librosa ([None] when importing it raises [ImportError]; otherwise the
    pitch track and the RMS energy of a file). *)
Record World := mkWorld {
  path_exists : string -> bool;
  whisper_transcribe : string -> AsrResult;
  librosa : option (string -> list Q * list Q)
}.

Inductive event : Type :=
| LoadModel
| Transcribe (path : string).

(** The module-level [model] and the calls made to the recogniser so far. *)
Record Runtime := mkRuntime {
  model_loaded : bool;
  asr_trace : list event
}.

Definition load_model (rt : Runtime) : Runtime :=
  if model_loaded rt then rt
  else {| model_loaded := true; asr_trace := asr_trace rt ++ [LoadModel] |}.

Definition transcribe (w : World) (path : string) (rt : Runtime) : AsrResult * Runtime :=
  (whisper_transcribe w path,
   {| model_loaded := model_loaded rt;
      asr_trace := asr_trace rt ++ [Transcribe path] |}).

Record AudioMetrics := mkAudioMetrics {
  am_transcript : string;
  am_word_count : nat;
  am_segments : list Segment;
  am_filler_count : nat;
  am_filler_word_frequency : Q;
  am_pause_frequency : nat;
  am_average_pause_duration : Q;
  am_long_pauses : nat;
  am_speech_rate_wpm : Q;
  am_pitch_variability : Q;
  am_volume_stability : npfloat;
  am_voice_stress_indicator : Q;
  am_vocal_tremor_detected : bool;
  am_speech_fluency_score : Q
}.

Inductive AudioResult : Type :=
| AudioError (msg : string)
| AudioOk (m : AudioMetrics).

Section AnalyzeAudio.

Variable np_std : list Q -> Q.

Definition analyze_audio (w : World) (audio_path : string) (rt : Runtime)
  : AudioResult * Runtime :=
  if negb (path_exists w audio_path) then
    (AudioError "Audio file not found", rt)
  else
    let rt := load_model rt in
    let '(result, rt) := transcribe w audio_path rt in
    let segments := asr_segments result in
    let full_text := asr_text result in
    let words := Text.words_of full_text in
    let filler_count := count_fillers words in
    let pause_data := calculate_pause_metrics segments in
    let speech_rate := calculate_speech_rate segments (length words) in
    let acoustic_features :=
      match librosa w with
      | Some load =>
          let '(pitch_track, rms) := load audio_path in
          extract_acoustic_features np_std pitch_track rms
      | None => get_basic_acoustic_features
      end in
    let fluency_score :=
      calculate_fluency_score filler_count (length words)
        (long_pauses pause_data) (pause_frequency pause_data) in
    (AudioOk
       {| am_transcript := full_text;
          am_word_count := length words;
          am_segments := segments;
          am_filler_count := filler_count;
          am_filler_word_frequency :=
            if (0 <? length words)%nat
            then round2 (Qnat filler_count / Qnat (length words) * 100)
            else 0;
          am_pause_frequency := pause_frequency pause_data;
          am_average_pause_duration := average_pause_duration pause_data;
          am_long_pauses := long_pauses pause_data;
          am_speech_rate_wpm := speech_rate;
          am_pitch_variability := pitch_variability acoustic_features;
          am_volume_stability := ac_volume_stability acoustic_features;
          am_voice_stress_indicator := voice_stress_indicator acoustic_features;
          am_vocal_tremor_detected := vocal_tremor_detected acoustic_features;
          am_speech_fluency_score := fluency_score |},
     rt).

End AnalyzeAudio.

End Audio.

(** ** Speech metrics in double precision *)

Module Audio64.

Import Audio.

(** The times of a segment as the floats the recogniser hands over. *)
Definition start_of (s : Segment) : Q := F64.lit (seg_start s).
Definition end_of (s : Segment) : Q := F64.lit (seg_end s).

(** *** [calculate_pause_metrics] *)

(** [gap = segments[i]["start"] - segments[i-1]["end"]], a float
    subtraction. *)
Definition gap_at (segments : list Segment) (i : nat) : Q :=
  F64.sub (start_of (nth i segments seg0)) (end_of (nth (i - 1) segments seg0)).

(** The loop over [range(1, len(segments))]; its body compares the gap with
    [0.5] and [2.0], both doubles, as [Audio.pause_step] does. *)
Definition pause_loop (segments : list Segment) : pause_state :=
  fold_left (fun st i => pause_step st (gap_at segments i))
            (seq 1 (length segments - 1)) ([], 0%nat).

Section Mean.

(** [round(np.mean(pauses), 2)] on a non-empty list: numpy's summation and
    numpy's rounding of its [float64], taken as given. *)
Variable mean_round2 : list Q -> Q.

Definition calculate_pause_metrics (segments : list Segment) : PauseData :=
  let '(pauses, long) := pause_loop segments in
  {| pause_frequency := length pauses;
     average_pause_duration :=
       match pauses with [] => 0 | _ => mean_round2 pauses end;
     long_pauses := long |}.

End Mean.

(** *** [calculate_speech_rate] *)

(** [speaking_time], starting from the integer 0 and adding the float
    [seg["end"] - seg["start"]] of each segment. *)
Definition speaking_time (segments : list Segment) : Q :=
  fold_left (fun acc seg => F64.add acc (F64.sub (end_of seg) (start_of seg)))
            segments 0.

Definition calculate_speech_rate (segments : list Segment) (word_count : nat) : Q :=
  match segments with
  | [] => 0
  | _ =>
    if (word_count =? 0)%nat then 0
    else
      let t := speaking_time segments in
      if Qeqb t 0 then 0
      else F64.round2 (F64.mul (F64.div (F64.of_nat word_count) t) 60)
  end.

(** *** [calculate_fluency_score] *)

(** The two pause penalties are integers; the subtractions turn them into
    floats. *)
Definition calculate_fluency_score
    (filler_count word_count long_pauses pause_frequency : nat) : Q :=
  if (word_count =? 0)%nat then 0
  else
    let filler_penalty := F64.mul (F64.div_nat filler_count word_count) 100 in
    let pause_penalty := (long_pauses * 5)%nat in
    let pause_rate_penalty := Nat.min 30 (pause_frequency * 2) in
    let fluency :=
      F64.sub (F64.sub (F64.sub 100 filler_penalty) (F64.of_nat pause_penalty))
              (F64.of_nat pause_rate_penalty) in
    let fluency := py_max 0 (py_min 100 fluency) in
    F64.round2 fluency.

(** *** The speech metrics of [analyze_audio] *)

Record SpeechMetrics := mkSpeechMetrics {
  sp_word_count : nat;
  sp_filler_count : nat;
  sp_filler_word_frequency : Q;
  sp_pause_frequency : nat;
  sp_average_pause_duration : Q;
  sp_long_pauses : nat;
  sp_speech_rate_wpm : Q;
  sp_speech_fluency_score : Q
}.

Section Metrics.

Variable mean_round2 : list Q -> Q.

(** [analyze_audio] from [segments = result["segments"]] on: what it derives
    from the transcription, the acoustic features left aside. *)
Definition speech_metrics (result : AsrResult) : SpeechMetrics :=
  let segments := asr_segments result in
  let full_text := asr_text result in
  let words := Text.words_of full_text in
  let filler_count := count_fillers words in
  let pause_data := calculate_pause_metrics mean_round2 segments in
  let speech_rate := calculate_speech_rate segments (length words) in
  let fluency_score :=
    calculate_fluency_score filler_count (length words)
      (long_pauses pause_data) (pause_frequency pause_data) in
  {| sp_word_count := length words;
     sp_filler_count := filler_count;
     sp_filler_word_frequency :=
       if (0 <? length words)%nat
       then F64.round2 (F64.mul (F64.div_nat filler_count (length words)) 100)
       else 0;
     sp_pause_frequency := pause_frequency pause_data;
     sp_average_pause_duration := average_pause_duration pause_data;
     sp_long_pauses := long_pauses pause_data;
     sp_speech_rate_wpm := speech_rate;
     sp_speech_fluency_score := fluency_score |}.

End Metrics.

End Audio64.

(** ** Semantic analyser: [transcript_analysis.py] *)

Module Transcript.

Import Py.

(** *** Segment statistics *)

Definition speech_time (segments : list Segment) : Q :=
  fold_left (fun acc seg => acc + (seg_end seg - seg_start seg)) segments 0.

Definition calculate_content_density (segments : list Segment) (total_duration : Q) : Q :=
  if Qeqb total_duration 0 then 0
  else round2 ((speech_time segments / total_duration) * 100).

Definition calculate_transcript_confidence (segments : list Segment) : Q :=
  match segments with
  | [] => 0
  | _ =>
    let confidence_scores :=
      map (fun seg =>
             let no_speech_prob :=
               match seg_no_speech_prob seg with Some p => p | None => 1#2 end in
             (1 - no_speech_prob) * 100) segments in
    round2 (Qsum confidence_scores / Qnat (length confidence_scores))
  end.

(** [segments[-1]["end"] if segments else 0] *)
Definition total_duration_of (segments : list Segment) : Q :=
  match segments with
  | [] => 0
  | _ => seg_end (last segments seg0)
  end.

(** *** [get_fallback_analysis] *)

Definition fear_keywords : list string :=
  ["afraid"; "scared"; "anxious"; "worry"; "fear"; "nervous"; "terrified"]%string.
Definition stress_keywords : list string :=
  ["stress"; "overwhelmed"; "pressure"; "tense"; "exhausted"; "burnout"]%string.
Definition confidence_keywords : list string :=
  ["confident"; "capable"; "strong"; "able"; "succeed"; "achieve"]%string.
Definition calm_keywords : list string :=
  ["calm"; "peaceful"; "relaxed"; "comfortable"; "ease"; "serene"]%string.
Definition crisis_keywords : list string :=
  ["suicide"; "kill myself"; "end it"; "hopeless"; "worthless"; "give up"]%string.

(** [[w for w in words if w in keywords]] *)
Definition matching (keywords words : list string) : list string :=
  filter (fun w => Text.str_in w keywords) words.

Definition fear_words (words : list string) := matching fear_keywords words.
Definition stress_words (words : list string) := matching stress_keywords words.
Definition confidence_words (words : list string) := matching confidence_keywords words.
Definition calm_words (words : list string) := matching calm_keywords words.
Definition crisis_words (words : list string) := matching crisis_keywords words.

Definition overall_sentiment (words : list string) : string :=
  let positive_count := (length (confidence_words words) + length (calm_words words))%nat in
  let negative_count := (length (fear_words words) + length (stress_words words))%nat in
  if (negative_count <? positive_count)%nat then "positive"
  else if (positive_count <? negative_count)%nat then "negative"
  else "neutral".

Definition str_of_nat (n : nat) : string :=
  DecimalString.NilEmpty.string_of_uint (Nat.to_uint n).

Definition strs (l : list string) : pyval := PList (map PStr l).
Definition int_of (n : nat) : pyval := PInt (Z.of_nat n).

Definition hopelessness_language (words : list string) : bool :=
  Text.str_in "hopeless" words || Text.str_in "worthless" words.

Definition risk_level (words : list string) : string :=
  if (0 <? length (crisis_words words))%nat then "high" else "none".

Definition crisis_indicators (words : list string) : dict :=
  [ ("self_harm_references", PBool (0 <? length (crisis_words words))%nat);
    ("hopelessness_language", PBool (hopelessness_language words));
    ("crisis_keywords_found", strs (crisis_words words));
    ("risk_level", PStr (risk_level words)) ]%string.

Definition fallback_dict (transcript : string) : dict :=
  let words := Text.words_of transcript in
  [ ("sentiment_trend",
       PDict [ ("overall", PStr (overall_sentiment words));
               ("trajectory", PStr "stable");
               ("confidence", PInt 60) ]);
    ("emotional_language",
       PDict [ ("fear_words", strs (firstn 5 (fear_words words)));
               ("stress_words", strs (firstn 5 (stress_words words)));
               ("confidence_words", strs (firstn 5 (confidence_words words)));
               ("calm_words", strs (firstn 5 (calm_words words)));
               ("total_emotional_words",
                  int_of (length (fear_words words) + length (stress_words words)
                          + length (confidence_words words)
                          + length (calm_words words))) ]);
    ("cognitive_distortions", PList []);
    ("crisis_indicators", PDict (crisis_indicators words));
    ("observational_summary",
       PStr ("Session transcript contains " ++ str_of_nat (length words)
             ++ " words with " ++ overall_sentiment words
             ++ " sentiment overall."));
    ("strength_indicators",
       if (50 <? length words)%nat
       then strs ["Engaged in session"; "Completed full session"]
       else PList []) ]%string.

Definition get_fallback_analysis (transcript : string) : pyval :=
  PDict (fallback_dict transcript).

(** *** [analyze_with_llm] *)

(** What [requests.post] does: it raises (no connection, timeout), or it
    returns a response with a status and a body; [body] is what
    [response.json()] yields, [None] when the body is not JSON. *)
Inductive PostOutcome : Type :=
| PostRaised
| PostResponse (status_ok : bool) (body : option pyval).

(** The surroundings of the call: the configured key, the answer of the
    service, and the JSON decoder ([None] for [JSONDecodeError]). *)
Record LLMWorld := mkLLMWorld {
  api_key : string;
  http_post : PostOutcome;
  json_loads : string -> option pyval
}.

(** [result["choices"][0]["message"]["content"]] *)
Definition message_content (result : pyval) : option pyval :=
  choices <- subscript_key result "choices" ;;
  choice <- subscript_0 choices ;;
  message <- subscript_key choice "message" ;;
  subscript_key message "content".

(** The body of the [try] block; [None] is any exception raised inside it:
    by [requests.post], by [raise_for_status], by [response.json()], by the
    subscripts, or by [json.loads], which wants text and valid JSON. *)
Definition llm_request (w : LLMWorld) : option pyval :=
  match http_post w with
  | PostRaised => None
  | PostResponse status_ok body =>
      if status_ok then
        result <- body ;;
        content <- message_content result ;;
        match content with
        | PStr text => json_loads w text
        | _ => None
        end
      else None
  end.

Definition analyze_with_llm (w : LLMWorld) (transcript : string) : pyval :=
  if Text.is_empty (api_key w) then get_fallback_analysis transcript
  else
    match llm_request w with
    | Some analysis => analysis
    | None => get_fallback_analysis transcript
    end.

(** *** [analyze_transcript] *)

(** [None] is the [AttributeError] of calling [.get] on a value that is not a
    dict. *)
Definition analyze_transcript (w : LLMWorld) (transcript : string)
    (segments : list Segment) (word_count filler_count : nat) : option dict :=
  let total_duration := total_duration_of segments in
  let speech_content_density := calculate_content_density segments total_duration in
  let transcript_confidence := calculate_transcript_confidence segments in
  match analyze_with_llm w transcript with
  | PDict llm_analysis =>
      Some
        [ ("transcript_confidence_level", PFloat transcript_confidence);
          ("speech_content_density", PFloat speech_content_density);
          ("filler_word_frequency", int_of filler_count);
          ("sentiment_polarity_trend", dict_get "sentiment_trend" (PDict []) llm_analysis);
          ("emotional_language_usage", dict_get "emotional_language" (PDict []) llm_analysis);
          ("cognitive_distortion_indicators",
             dict_get "cognitive_distortions" (PList []) llm_analysis);
          ("crisis_keyword_presence", dict_get "crisis_indicators" (PDict []) llm_analysis);
          ("observational_summary", dict_get "observational_summary" (PStr "") llm_analysis);
          ("detected_strengths", dict_get "strength_indicators" (PList []) llm_analysis) ]%string
  | _ => None
  end.

End Transcript.

(** ** Counting dictionaries *)

Module Counts.

Section WithKey.

Variable K : Type.
Variable eqb : K -> K -> bool.

Definition t : Type := list (K * nat).

(** [counts.get(k, 0)] *)
Fixpoint get (k : K) (counts : t) : nat :=
  match counts with
  | [] => 0%nat
  | (k', c) :: r => if eqb k k' then c else get k r
  end.

(** [counts[k] = counts.get(k, 0) + 1]: an existing key keeps its place, a
    new key goes to the end. *)
Fixpoint incr (k : K) (counts : t) : t :=
  match counts with
  | [] => [(k, 1%nat)]
  | (k', c) :: r => if eqb k k' then (k', S c) :: r else (k', c) :: incr k r
  end.

(** [sum(counts.values())] *)
Definition total (counts : t) : nat :=
  fold_left (fun acc kc => (acc + snd kc)%nat) counts 0%nat.

(** [max(counts.items(), key=lambda x: x[1])]: the first item whose count
    no later item exceeds. *)
Definition max_item (counts : t) : option (K * nat) :=
  match counts with
  | [] => None
  | first :: rest =>
      Some (fold_left (fun best it => if (snd best <? snd it)%nat then it else best)
                      rest first)
  end.

(** [len(counts)] *)
Definition size (counts : t) : nat := length counts.

End WithKey.

Arguments get {K} eqb k counts.
Arguments incr {K} eqb k counts.
Arguments total {K} counts.
Arguments max_item {K} counts.
Arguments size {K} counts.

End Counts.

(** ** Facial analyser: [video_analysis.py] *)

Module Video.

Record HeadMovement := mkHead {
  pattern : string;
  description : string;
  severity : string
}.

Definition assess_head_movement (emotion_changes : nat) (variability : Q) : HeadMovement :=
  if Qltb 50 variability then
    {| pattern := "high_movement";
       description := "Frequent head movements detected, indicating high engagement or restlessness";
       severity := "moderate" |}
  else if Qltb 25 variability then
    {| pattern := "moderate_movement";
       description := "Normal head movement patterns observed";
       severity := "low" |}
  else
    {| pattern := "low_movement";
       description := "Minimal head movement, indicating stillness or low engagement";
       severity := "low" |}.

Record VideoMetrics := mkVideoMetrics {
  dominant_emotion : string;
  emotion_distribution : list (string * Q);
  emotional_variability : Q;
  tension_index : Q;
  eye_contact_consistency : Q;
  head_movement_patterns : HeadMovement;
  expressiveness_score : Q;
  stress_frequency : Q
}.

Definition emotion_counts_t : Type := list (string * nat).

(** [calculate_video_metrics]; its first parameter, the timeline, is not read by
    the body and is left out. *)
Definition calculate_video_metrics
    (emotion_counts : emotion_counts_t)
    (emotion_changes stress_expressions analyzed_frames : nat)
    (duration : Q) : VideoMetrics :=
  let total_analyzed := Counts.total emotion_counts in
  let emotion_distribution :=
    map (fun ec : string * nat =>
           let percentage :=
             if (0 <? total_analyzed)%nat
             then Qnat (snd ec) / Qnat total_analyzed * 100 else 0 in
           (fst ec, round2 percentage)) emotion_counts in
  let dominant_emotion :=
    match Counts.max_item emotion_counts with
    | Some (e, _) => e
    | None => "neutral"%string
    end in
  let variability :=
    if (1 <? analyzed_frames)%nat
    then (Qnat emotion_changes / Qnat (analyzed_frames - 1)) * 100
    else 0 in
  let emotional_variability := round2 (py_min 100 variability) in
  let stress_count :=
    (Counts.get String.eqb "angry"%string emotion_counts
     + Counts.get String.eqb "fear"%string emotion_counts
     + Counts.get String.eqb "sad"%string emotion_counts)%nat in
  let tension_index :=
    if (0 <? total_analyzed)%nat
    then Qnat stress_count / Qnat total_analyzed * 100 else 0 in
  let tension_index := round2 tension_index in
  let eye_contact_consistency :=
    round2 ((Qnat analyzed_frames / Qnat (Nat.max 1 analyzed_frames)) * 85) in
  let head_movement_patterns := assess_head_movement emotion_changes emotional_variability in
  let unique_emotions := Counts.size emotion_counts in
  let expressiveness :=
    py_min 100 (Qnat (unique_emotions * 15) + emotional_variability * (1#2)) in
  let expressiveness_score := round2 expressiveness in
  let stress_frequency :=
    if Qltb 0 duration then Qnat stress_expressions / (duration / 60) else 0 in
  let stress_frequency := round2 stress_frequency in
  {| dominant_emotion := dominant_emotion;
     emotion_distribution := emotion_distribution;
     emotional_variability := emotional_variability;
     tension_index := tension_index;
     eye_contact_consistency := eye_contact_consistency;
     head_movement_patterns := head_movement_patterns;
     expressiveness_score := expressiveness_score;
     stress_frequency := stress_frequency |}.

End Video.

(** ** Report fusion: [pipeline.py] *)

Module Pipeline.

Import Py.

(** The seven session-level fields with the defaults [.get] falls back to. *)
Definition aggregate_fields : list (string * pyval) :=
  [ ("dominant_emotion_distribution", PDict []);
    ("facial_emotional_variability", PInt 0);
    ("facial_tension_index", PInt 0);
    ("eye_contact_consistency", PInt 0);
    ("head_movement_patterns", PDict []);
    ("facial_expressiveness_score", PInt 0);
    ("stress_expression_frequency", PInt 0) ]%string.

(** [aggregate_video_metrics]; [None] is the [AttributeError] of a first
    participant that is not a dict. *)
Definition aggregate_video_metrics (video_results : dict) : option dict :=
  match dict_values video_results with
  | [] => Some []
  | first_participant :: _ =>
      match first_participant with
      | PDict fp =>
          Some (map (fun fd : string * pyval => (fst fd, dict_get (fst fd) (snd fd) fp))
                    aggregate_fields)
      | _ => None
      end
  end.

(** [calculate_overall_confidence]; [None] is the [TypeError] of arithmetic on
    a value that is not a number. *)
Definition calculate_overall_confidence (audio_results transcript_results : dict)
  : option Q :=
  transcript_conf <- as_number (dict_get "transcript_confidence_level" (PInt 0) transcript_results) ;;
  fluency_score <- as_number (dict_get "speech_fluency_score" (PInt 0) audio_results) ;;
  Some (round2 (transcript_conf * (1#2) + fluency_score * (1#2))).

Definition get_all (fields : list (string * pyval)) (d : dict) : dict :=
  map (fun fd : string * pyval => (fst fd, dict_get (fst fd) (snd fd) d)) fields.

(** [generate_comprehensive_report]; [now] is the value of [time.time()].
    [None] is an exception: a missing key of [session_metadata], a first
    participant that is not a dict, a confidence input that is not a number. *)
Definition generate_comprehensive_report
    (session_id : string) (session_metadata audio_results transcript_results
     video_results : dict) (now : Q) : option dict :=
  aggregated_video <- aggregate_video_metrics video_results ;;
  m_id <- dict_lookup "session_id" session_metadata ;;
  m_type <- dict_lookup "session_type" session_metadata ;;
  m_date <- dict_lookup "session_date" session_metadata ;;
  m_duration <- dict_lookup "session_duration" session_metadata ;;
  m_seconds <- dict_lookup "session_duration_seconds" session_metadata ;;
  confidence <- calculate_overall_confidence audio_results transcript_results ;;
  Some
    [ ("session_metadata",
         PDict [ ("session_id", m_id);
                 ("session_type", m_type);
                 ("session_date", m_date);
                 ("session_duration", m_duration);
                 ("session_duration_seconds", m_seconds) ]);
      ("video_analysis",
         PDict (get_all aggregate_fields aggregated_video
                ++ [ ("participants", PDict video_results) ]));
      ("audio_analysis",
         PDict (get_all
                  [ ("speech_rate_wpm", PInt 0);
                    ("pitch_variability", PInt 0);
                    ("volume_stability", PInt 0);
                    ("pause_frequency", PInt 0);
                    ("average_pause_duration", PInt 0);
                    ("voice_stress_indicator", PInt 0);
                    ("vocal_tremor_detected", PBool false);
                    ("speech_fluency_score", PInt 0);
                    ("transcript", PStr "");
                    ("word_count", PInt 0);
                    ("filler_count", PInt 0) ] audio_results));
      ("transcript_analysis",
         PDict (get_all
                  [ ("transcript_confidence_level", PInt 0);
                    ("speech_content_density", PInt 0);
                    ("filler_word_frequency", PInt 0);
                    ("sentiment_polarity_trend", PDict []);
                    ("emotional_language_usage", PDict []);
                    ("cognitive_distortion_indicators", PList []);
                    ("crisis_keyword_presence", PDict []) ] transcript_results));
      ("summary",
         PDict (get_all
                  [ ("observational_summary", PStr "");
                    ("detected_strengths", PList []) ] transcript_results));
      ("confidence_score", PFloat confidence);
      ("generated_at", PFloat now) ]%string.


End Pipeline.

(** ** Step windows: [app.py] *)

Module Stepwise.

(** A scenario step; of its fields only ["time"] is read. *)
Record Step := mkStep {
  step_name : string;
  step_time : option Q
}.

(** One entry of a participant's ["emotions"] timeline. *)
Record EmotionEntry := mkEntry {
  e_time : option Q;
  e_emotion : option string
}.

(** [report["video_analysis"]["participants"]], each participant with its
    ["emotions"] list when it has one. *)
Definition video_data_t : Type := list (string * option (list EmotionEntry)).

Definition label_eqb (a b : option string) : bool :=
  match a, b with
  | Some x, Some y => String.eqb x y
  | None, None => true
  | _, _ => false
  end.

(** [emotion_entry.get("time", 0)] *)
Definition entry_time (e : EmotionEntry) : Q :=
  match e_time e with Some t => t | None => 0 end.

(** [start_time <= t < end_time] *)
Definition in_range (start_time end_time t : Q) : bool :=
  Qle_bool start_time t && Qltb t end_time.

Definition emotions_of (p : string * option (list EmotionEntry)) : list EmotionEntry :=
  match snd p with Some l => l | None => [] end.

Definition filter_emotions (video_data : video_data_t) (start_time end_time : Q)
  : list EmotionEntry :=
  flat_map (fun p => filter (fun e => in_range start_time end_time (entry_time e))
                            (emotions_of p)) video_data.

Definition count_emotions (entries : list EmotionEntry) : Counts.t (option string) :=
  fold_left (fun counts e => Counts.incr label_eqb (e_emotion e) counts) entries [].

Record RangeMetrics := mkRangeMetrics {
  rm_emotion_distribution : list (option string * Q);
  rm_dominant_emotion : option string;
  rm_sample_count : nat
}.

Definition extract_metrics_for_timerange (video_data : video_data_t)
    (start_time end_time : Q) : RangeMetrics :=
  let filtered_emotions := filter_emotions video_data start_time end_time in
  let emotion_counts := count_emotions filtered_emotions in
  let total := Counts.total emotion_counts in
  let emotion_distribution :=
    if (0 <? total)%nat then
      map (fun ec : option string * nat =>
             (fst ec, round2 ((Qnat (snd ec) / Qnat total) * 100))) emotion_counts
    else [] in
  {| rm_emotion_distribution := emotion_distribution;
     rm_dominant_emotion :=
       match Counts.max_item emotion_counts with
       | Some (e, _) => e
       | None => Some "neutral"%string
       end;
     rm_sample_count := length filtered_emotions |}.

(** The end bound used where no later step supplies one. *)
Definition sentinel : Q := 999999.

Record StepMetrics := mkStepMetrics {
  sm_step : Step;
  sm_start : Q;
  sm_end : Q;
  sm_metrics : RangeMetrics
}.

Definition step_start_of (step : Step) : Q :=
  match step_time step with Some t => t | None => 0 end.

(** [steps[i + 1].get("time", 999999) if i + 1 < len(steps) else 999999] *)
Definition step_end_of (steps : list Step) (i : nat) : Q :=
  match nth_error steps (i + 1) with
  | Some next => match step_time next with Some t => t | None => sentinel end
  | None => sentinel
  end.

Definition generate_stepwise_metrics (video_data : video_data_t) (steps : list Step)
  : list StepMetrics :=
  map (fun ist : nat * Step =>
         let step_start := step_start_of (snd ist) in
         let step_end := step_end_of steps (fst ist) in
         {| sm_step := snd ist;
            sm_start := step_start;
            sm_end := step_end;
            sm_metrics := extract_metrics_for_timerange video_data step_start step_end |})
      (combine (seq 0 (length steps)) steps).

End Stepwise.

(** ** Neighbouring pairs of a list *)

Module Adjacent.

Section Pairs.

Variables A B : Type.
Variable f : A -> A -> B.

(** [f prev cur] for every neighbouring pair, by recursion on the list. *)
Fixpoint adj_map (l : list A) : list B :=
  match l with
  | a :: (b :: _) as tl => f a b :: adj_map tl
  | _ => []
  end.

End Pairs.

Arguments adj_map {A B} f l.


End Adjacent.

(** ** The formulas as the specification words them *)

Module Reference.







(** Segments in time order that do not overlap: each starts no earlier than
    [t], ends no earlier than it starts, and the rest follows its end. *)
Fixpoint ordered_from (t : Q) (segments : list Segment) : Prop :=
  match segments with
  | [] => True
  | s :: rest =>
      t <= seg_start s /\ seg_start s <= seg_end s /\ ordered_from (seg_end s) rest
  end.


(** The windows of an ordered list of step boundaries: [[t_i, t_{i+1})], the
    last one running to the sentinel. *)
Fixpoint windows (ts : list Q) : list (Q * Q) :=
  match ts with
  | [] => []
  | t :: tl =>
      (t, match tl with [] => Stepwise.sentinel | t' :: _ => t' end) :: windows tl
  end.

(** Every sample of every participant, in order. *)
Definition all_samples (video_data : Stepwise.video_data_t) : list Stepwise.EmotionEntry :=
  flat_map Stepwise.emotions_of video_data.





(** [analysis["crisis_indicators"][field]] *)
Definition crisis_field (analysis : Py.pyval) (field : string) : option Py.pyval :=
  ci <- Py.subscript_key analysis "crisis_indicators" ;;
  Py.subscript_key ci field.

(** The entries of the two keyword lists that are single words. *)
Definition single_word_fillers : list string := [ "um"; "uh"; "ah"; "like" ]%string.
Definition single_word_crisis : list string :=
  [ "suicide"; "hopeless"; "worthless" ]%string.
Definition multi_word_crisis : list string :=
  [ "kill myself"; "end it"; "give up" ]%string.
Definition multi_word_entries : list string :=
  ([ "you know"; "sort of"; "kind of" ]%string ++ multi_word_crisis)%list.


(** The ways the request to the language model fails: the call raises (no
    connection, timeout), the status is an error, the body is not JSON, the
    body has no [choices[0].message.content], the content is not text, or the
    content is not valid JSON. *)
Inductive llm_failure (w : Transcript.LLMWorld) : Prop :=
| request_raised :
    Transcript.http_post w = Transcript.PostRaised -> llm_failure w
| error_status (body : option Py.pyval) :
    Transcript.http_post w = Transcript.PostResponse false body -> llm_failure w
| body_not_json :
    Transcript.http_post w = Transcript.PostResponse true None -> llm_failure w
| content_missing (result : Py.pyval) :
    Transcript.http_post w = Transcript.PostResponse true (Some result) ->
    Transcript.message_content result = None -> llm_failure w
| content_not_text (result content : Py.pyval) :
    Transcript.http_post w = Transcript.PostResponse true (Some result) ->
    Transcript.message_content result = Some content ->
    (forall text, content <> Py.PStr text) -> llm_failure w
| content_not_json (result : Py.pyval) (text : string) :
    Transcript.http_post w = Transcript.PostResponse true (Some result) ->
    Transcript.message_content result = Some (Py.PStr text) ->
    Transcript.json_loads w text = None -> llm_failure w.

End Reference.

(** ** Sample inputs *)

Module Samples.

(** Three segments whose gaps are a quarter of a second. *)
Definition quiet_segments : list Segment :=
  [ mkSegment 0 1 None; mkSegment (5#4) 2 None; mkSegment (9#4) 3 None ].


(** A stand-in for [np.std] where its value does not matter. *)
Definition std0 : list Q -> Q := fun _ => 0.

Definition rt0 : Audio.Runtime := Audio.mkRuntime false [].

(** A recording of five words, two of them fillers, in two segments three
    seconds apart; librosa is not installed. *)
Definition speaking_world : Audio.World :=
  Audio.mkWorld (fun _ => true)
    (fun _ => Audio.mkAsr "Um I feel like going"
                [ mkSegment 0 2 None; mkSegment 5 7 None ])
    None.


(** No file anywhere. *)
Definition missing_world : Audio.World :=
  Audio.mkWorld (fun _ => false)
    (fun _ => Audio.mkAsr "never read" [ mkSegment 0 1 None ])
    None.





(** Three segments with one gap of three seconds. *)
Definition one_long_gap : list Segment :=
  [ mkSegment 0 2 None; mkSegment 2 4 None; mkSegment 7 9 None ].

(** Two segments that overlap: ten seconds of recording, fifteen of speech. *)
Definition overlapping_segments : list Segment :=
  [ mkSegment 0 10 None; mkSegment 5 10 None ].


(** One participant sampled at 1, 5, 9 and 14 seconds; steps at 0 and 10. *)
Definition four_samples : Stepwise.video_data_t :=
  [ ("A"%string,
     Some [ Stepwise.mkEntry (Some 1) (Some "happy"%string);
            Stepwise.mkEntry (Some 5) (Some "happy"%string);
            Stepwise.mkEntry (Some 9) (Some "sad"%string);
            Stepwise.mkEntry (Some 14) (Some "neutral"%string) ]) ].

Definition two_steps : list Stepwise.Step :=
  [ Stepwise.mkStep "greeting" (Some 0); Stepwise.mkStep "question" (Some 10) ].


Definition one_step : list Stepwise.Step := [ Stepwise.mkStep "only" (Some 0) ].










(** A JSON decoder that knows the two texts used below, the empty object and
    the empty array, and rejects every other text. *)
Definition decode_empty (text : string) : option Py.pyval :=
  if String.eqb text "{}" then Some (Py.PDict [])
  else if String.eqb text "[]" then Some (Py.PList [])
  else None.

(** The service answers with status 200 and the given text as the content of
    its first choice. *)
Definition answering (text : string) : Transcript.LLMWorld :=
  Transcript.mkLLMWorld "sk-test"
    (Transcript.PostResponse true
       (Some (Py.PDict
          [ ("choices"%string,
             Py.PList [ Py.PDict
               [ ("message"%string,
                  Py.PDict [ ("content"%string, Py.PStr text) ]) ] ]) ])))
    decode_empty.

(** No key configured. *)
Definition no_key : Transcript.LLMWorld :=
  Transcript.mkLLMWorld "" Transcript.PostRaised decode_empty.


End Samples.

(** ** The frame loop of [analyze_video] *)

Module VideoLoop.

(** One entry of what the classifier returns for a frame. *)
Record Face := mkFace {
  face_dominant : string;
  face_scores : list (string * Q)
}.

(** What [DeepFace.analyze] does on a frame: it raises, or it returns a list
    of faces, possibly empty. *)
Inductive Classified : Type :=
| ClassifierRaised
| Faces (result : list Face).

Record Sample := mkSample {
  s_time : Q;
  s_emotion : string;
  s_scores : list (string * Q)
}.

(** The variables the loop updates. *)
Record LoopState := mkLoopState {
  emotions_timeline : list Sample;
  emotion_counts : Counts.t string;
  emotion_changes : nat;
  previous_emotion : option string;
  stress_expressions : nat;
  frame_idx : nat;
  analyzed_frames : nat
}.

Definition initial : LoopState :=
  {| emotions_timeline := [];
     emotion_counts := [];
     emotion_changes := 0;
     previous_emotion := None;
     stress_expressions := 0;
     frame_idx := 0;
     analyzed_frames := 0 |}.

(** [previous_emotion and previous_emotion != dominant_emotion]: [None] and
    the empty string are falsy. *)
Definition changed (previous : option string) (dominant : string) : bool :=
  match previous with
  | None => false
  | Some p => negb (Text.is_empty p) && negb (String.eqb p dominant)
  end.

Definition is_stress (dominant : string) : bool :=
  Text.str_in dominant [ "angry"; "fear"; "sad" ]%string.

(** The body of the [try] for a frame in which a face was found. *)
Definition record_face (timestamp : Q) (face : Face) (st : LoopState) : LoopState :=
  let dominant_emotion := face_dominant face in
  {| emotions_timeline :=
       emotions_timeline st
       ++ [ mkSample timestamp dominant_emotion (face_scores face) ];
     emotion_counts := Counts.incr String.eqb dominant_emotion (emotion_counts st);
     emotion_changes :=
       if changed (previous_emotion st) dominant_emotion
       then S (emotion_changes st) else emotion_changes st;
     previous_emotion := Some dominant_emotion;
     stress_expressions :=
       if is_stress dominant_emotion
       then S (stress_expressions st) else stress_expressions st;
     frame_idx := frame_idx st;
     analyzed_frames := S (analyzed_frames st) |}.

Definition next_frame (st : LoopState) : LoopState :=
  {| emotions_timeline := emotions_timeline st;
     emotion_counts := emotion_counts st;
     emotion_changes := emotion_changes st;
     previous_emotion := previous_emotion st;
     stress_expressions := stress_expressions st;
     frame_idx := S (frame_idx st);
     analyzed_frames := analyzed_frames st |}.

(** One turn of the [while] loop on a frame that was read.  [None] is the
    [ZeroDivisionError] of [frame_idx / fps], which no [try] encloses.  A
    frame off the stride is not classified; a classifier error or an empty
    result skips the frame. *)
Definition loop_step (fps : Q) (st : LoopState) (frame : Classified) : option LoopState :=
  if (frame_idx st mod 30 =? 0)%nat then
    if Qeqb fps 0 then None
    else
      let timestamp := Qnat (frame_idx st) / fps in
      match frame with
      | Faces (face :: _) => Some (next_frame (record_face timestamp face st))
      | _ => Some (next_frame st)
      end
  else Some (next_frame st).

Fixpoint run_loop (fps : Q) (frames : list Classified) (st : LoopState)
  : option LoopState :=
  match frames with
  | [] => Some st
  | frame :: rest =>
      match loop_step fps st frame with
      | Some st' => run_loop fps rest st'
      | None => None
      end
  end.

Record VideoReport := mkVideoReport {
  vr_emotions : list Sample;
  vr_emotion_summary : Counts.t string;
  vr_metrics : Video.VideoMetrics;
  vr_frames_analyzed : nat;
  vr_total_frames : nat;
  vr_video_duration_seconds : Q
}.

Inductive VideoResult : Type :=
| VideoError (msg : string)
| VideoOk (r : VideoReport).

(** [emotions_timeline[-1]["time"] if emotions_timeline else 0] *)
Definition actual_duration (timeline : list Sample) : Q :=
  match timeline with
  | [] => 0
  | _ => s_time (last timeline (mkSample 0 EmptyString []))
  end.

(** [analyze_video]: [opened] is [cap.isOpened()], [frames] what the
    classifier would answer on each frame of the file.  [None] is an
    exception that leaves the function. *)
Definition analyze_video (opened : bool) (fps : Q) (frames : list Classified)
  : option VideoResult :=
  if negb opened then Some (VideoError "Could not open video")
  else
    match run_loop fps frames initial with
    | None => None
    | Some st =>
        let duration := actual_duration (emotions_timeline st) in
        Some (VideoOk
          {| vr_emotions := emotions_timeline st;
             vr_emotion_summary := emotion_counts st;
             vr_metrics :=
               Video.calculate_video_metrics (emotion_counts st) (emotion_changes st)
                 (stress_expressions st) (analyzed_frames st) duration;
             vr_frames_analyzed := analyzed_frames st;
             vr_total_frames := frame_idx st;
             vr_video_duration_seconds := round2 duration |})
    end.

(** The sample the loop appends for frame [i] with first face [face]. *)
Definition sample_of (fps : Q) (iface : nat * Face) : Sample :=
  mkSample (Qnat (fst iface) / fps) (face_dominant (snd iface)) (face_scores (snd iface)).

(** The frames the loop records: those on the stride for which the classifier
    returned at least one face, with their index and the first face. *)
Definition recorded (frames : list Classified) (from : nat) : list (nat * Face) :=
  flat_map (fun ifr : nat * Classified =>
              if (fst ifr mod 30 =? 0)%nat then
                match snd ifr with
                | Faces (face :: _) => [ (fst ifr, face) ]
                | _ => []
                end
              else [])
           (combine (seq from (length frames)) frames).

(** What every turn of the loop keeps true. *)
Record consistent (st : LoopState) : Prop := mkConsistent {
  c_total : Counts.total (emotion_counts st) = analyzed_frames st;
  c_timeline : length (emotions_timeline st) = analyzed_frames st;
  c_changes : (emotion_changes st <= analyzed_frames st - 1)%nat;
  c_previous : analyzed_frames st = 0%nat -> previous_emotion st = None;
  c_stress :
    stress_expressions st
    = (Counts.get String.eqb "angry"%string (emotion_counts st)
       + Counts.get String.eqb "fear"%string (emotion_counts st)
       + Counts.get String.eqb "sad"%string (emotion_counts st))%nat;
  c_labels : NoDup (map fst (emotion_counts st))
}.

End VideoLoop.

(** ** Tallies *)

Module Tally.

(** How often [k] is the label of an item. *)
Definition occurrences {K A : Type} (eqb : K -> K -> bool) (label : A -> K) (k : K)
    (items : list A) : nat :=
  length (filter (fun x => eqb k (label x)) items).

End Tally.

(** ** Several recordings in one process *)

Module Batch.

(** [analyze_audio] called on one path after the other; the module-level
    model lives on from call to call. *)
Fixpoint analyze_all (np_std : list Q -> Q) (w : Audio.World) (paths : list string)
    (rt : Audio.Runtime) : list Audio.AudioResult * Audio.Runtime :=
  match paths with
  | [] => ([], rt)
  | path :: rest =>
      let '(r, rt1) := Audio.analyze_audio np_std w path rt in
      let '(rs, rt2) := analyze_all np_std w rest rt1 in
      (r :: rs, rt2)
  end.

Definition is_load (e : Audio.event) : bool :=
  match e with Audio.LoadModel => true | Audio.Transcribe _ => false end.

Definition transcribed (trace : list Audio.event) : list string :=
  flat_map (fun e => match e with
                     | Audio.Transcribe path => [path]
                     | Audio.LoadModel => []
                     end) trace.

End Batch.

(** ** Reading nested results; blank text *)

Module Lookup.

(** [analysis[outer][inner]] *)
Definition nested (analysis : Py.pyval) (outer inner : string) : option Py.pyval :=
  o <- Py.subscript_key analysis outer ;;
  Py.subscript_key o inner.


(** The keys [analyze_transcript] fills from the analysis of the language
    model: the key it writes, the key it reads and the default of [.get]. *)
Definition llm_mapping : list (string * (string * Py.pyval)) :=
  [ ("sentiment_polarity_trend", ("sentiment_trend", Py.PDict []));
    ("emotional_language_usage", ("emotional_language", Py.PDict []));
    ("cognitive_distortion_indicators", ("cognitive_distortions", Py.PList []));
    ("crisis_keyword_presence", ("crisis_indicators", Py.PDict []));
    ("observational_summary", ("observational_summary", Py.PStr ""));
    ("detected_strengths", ("strength_indicators", Py.PList [])) ]%string.

Definition transcript_keys : list string :=
  [ "transcript_confidence_level"; "speech_content_density"; "filler_word_frequency";
    "sentiment_polarity_trend"; "emotional_language_usage";
    "cognitive_distortion_indicators"; "crisis_keyword_presence";
    "observational_summary"; "detected_strengths" ]%string.

(** A segment whose [no_speech_prob], when present, is a probability. *)
Definition prob_ok (seg : Segment) : Prop :=
  match seg_no_speech_prob seg with
  | Some p => 0 <= p <= 1
  | None => True
  end.

Definition b2n (b : bool) : nat := if b then 1 else 0.

(** No entry of [a] is an entry of [b]. *)
Definition disjoint (a b : list string) : bool :=
  forallb (fun k => negb (Text.str_in k b)) a.

End Lookup.

(** ** Step boundaries in order *)

Module Windows.

(** Boundaries that never go back, the last one not beyond [bound]. *)
Fixpoint ascending (ts : list Q) (bound : Q) : Prop :=
  match ts with
  | [] => True
  | t :: tl =>
      match tl with
      | [] => t <= bound
      | t' :: _ => t <= t' /\ ascending tl bound
      end
  end.

(** The samples of all participants with [a <= time < b]. *)
Definition count_between (video_data : Stepwise.video_data_t) (a b : Q) : nat :=
  length (filter (fun e => Stepwise.in_range a b (Stepwise.entry_time e))
                 (Reference.all_samples video_data)).

(** The sample counts of all windows together. *)
Definition total_samples (result : list Stepwise.StepMetrics) : nat :=
  fold_right (fun w acc => (Stepwise.rm_sample_count (Stepwise.sm_metrics w) + acc)%nat)
             0%nat result.

End Windows.

(** ** The signalling relay: [ConnectionManager] of [app.py] *)

Module ConnMgr.

Section Dict.

Variable V : Type.

Definition sdict : Type := list (string * V).

(** [d.get(k)], [k in d] *)
Fixpoint lookup (k : string) (d : sdict) : option V :=
  match d with
  | [] => None
  | (k', v) :: r => if String.eqb k k' then Some v else lookup k r
  end.

(** [d[k] = v]: an existing key keeps its place. *)
Fixpoint set (k : string) (v : V) (d : sdict) : sdict :=
  match d with
  | [] => [(k, v)]
  | (k', v') :: r => if String.eqb k k' then (k', v) :: r else (k', v') :: set k v r
  end.

(** [del d[k]] *)
Fixpoint del (k : string) (d : sdict) : sdict :=
  match d with
  | [] => []
  | (k', v') :: r => if String.eqb k k' then r else (k', v') :: del k r
  end.

End Dict.

Arguments lookup {V} k d.
Arguments set {V} k v d.
Arguments del {V} k d.

(** A web socket, known by its identity. *)
Definition socket : Type := nat.

(** [self.active_connections] *)
Definition state : Type := sdict (list socket).

(** The connections of a session, none if the session is unknown. *)
Definition connections (session_id : string) (st : state) : list socket :=
  match lookup session_id st with Some l => l | None => [] end.

(** [connect]: the session gets its list if it has none; a third socket is
    closed with code 4000 and refused. *)
Definition connect (websocket : socket) (session_id : string) (st : state)
  : bool * state :=
  let st1 := match lookup session_id st with
             | Some _ => st
             | None => set session_id [] st
             end in
  let l := connections session_id st1 in
  if (2 <=? length l)%nat then (false, st1)
  else (true, set session_id (l ++ [websocket]) st1).

(** [list.remove(x)]: the first occurrence goes. *)
Fixpoint remove_first (x : socket) (l : list socket) : list socket :=
  match l with
  | [] => []
  | y :: r => if (x =? y)%nat then r else y :: remove_first x r
  end.

Definition mem (x : socket) (l : list socket) : bool := existsb (Nat.eqb x) l.

(** [disconnect] *)
Definition disconnect (websocket : socket) (session_id : string) (st : state) : state :=
  match lookup session_id st with
  | None => st
  | Some l =>
      let l' := if mem websocket l then remove_first websocket l else l in
      let st1 := set session_id l' st in
      match l' with
      | [] => del session_id st1
      | _ => st1
      end
  end.

(** [broadcast]: the sockets [send_text] is called on, in order. *)
Definition broadcast (session_id : string) (sender : socket) (st : state) : list socket :=
  match lookup session_id st with
  | None => []
  | Some l => filter (fun connection => negb (connection =? sender)%nat) l
  end.

(** [broadcast_to_all] *)
Definition broadcast_to_all (session_id : string) (st : state) : list socket :=
  match lookup session_id st with
  | None => []
  | Some l => l
  end.

(** What clients do to the relay. *)
Inductive request : Type :=
| Connect (websocket : socket) (session_id : string)
| Disconnect (websocket : socket) (session_id : string).

Definition serve (st : state) (r : request) : state :=
  match r with
  | Connect ws sid => snd (connect ws sid st)
  | Disconnect ws sid => disconnect ws sid st
  end.

(** The relay after a series of requests, starting with no connection. *)
Definition after (requests : list request) : state := fold_left serve requests [].

(** Every known session has one or two connections, and is known once. *)
Definition well_formed (st : state) : Prop :=
  NoDup (map fst st)
  /\ Forall (fun kv : string * list socket =>
               (1 <= length (snd kv) <= 2)%nat) st.

End ConnMgr.

(** ** Durations: [format_duration] of [session_metadata.py] *)

Module Duration.







End Duration.

(** ** Further sample inputs *)

Module Cases.

(** Sixty-one frames at 30 frames per second: a happy face on frame 0, the
    classifier failing on frame 30, a sad face on frame 60; the frames in
    between are never looked at. *)
Definition clip : list VideoLoop.Classified :=
  (VideoLoop.Faces [ VideoLoop.mkFace "happy" [] ] :: repeat VideoLoop.ClassifierRaised 29)
  ++ (VideoLoop.ClassifierRaised :: repeat (VideoLoop.Faces []) 29)
  ++ [ VideoLoop.Faces [ VideoLoop.mkFace "sad" [] ] ].


(** Counts with a tie for the lead: happy comes first. *)
Definition tied_counts : Video.emotion_counts_t :=
  [ ("neutral", 2%nat); ("happy", 5%nat); ("sad", 5%nat); ("fear", 1%nat) ]%string.


(** Only the files whose name starts with a lower-case [a] exist. *)
Definition some_files : Audio.World :=
  Audio.mkWorld (fun path => Text.is_prefix "a" path)
    (fun _ => Audio.mkAsr "hello there" [ mkSegment 0 1 None ]) None.

(** A standard deviation that is never negative. *)
Definition std_one : list Q -> Q := fun _ => 1.


(** Three segments: one surely speech, one half doubtful, one without the
    field. *)
Definition mixed_segments : list Segment :=
  [ mkSegment 0 1 (Some 0); mkSegment 1 2 (Some (1#2)); mkSegment 2 3 None ].






(** Three clients try to join session ["s1"], one joins ["s2"], then the first
    one leaves. *)
Definition busy_relay : list ConnMgr.request :=
  [ ConnMgr.Connect 1%nat "s1"; ConnMgr.Connect 2%nat "s1"; ConnMgr.Connect 3%nat "s1";
    ConnMgr.Connect 4%nat "s2"; ConnMgr.Disconnect 1%nat "s1" ]%string.

Definition full_session : ConnMgr.state := [ ("s1"%string, [1%nat; 2%nat]) ].

End Cases.

(** * Properties *)

(** ** Facts about the numeric model *)

Module NumFacts.

Lemma Qltb_lt (a b : Q) : Qltb a b = true <-> a < b.
Proof.
  unfold Qltb. rewrite negb_true_iff.
  split; intro H.
  - apply Qnot_le_lt. intro Hle. apply Qle_bool_iff in Hle. congruence.
  - destruct (Qle_bool b a) eqn:E; [|reflexivity].
    apply Qle_bool_iff in E. exfalso. apply (Qlt_not_le _ _ H E).
Qed.

Lemma Qltb_ge (a b : Q) : Qltb a b = false <-> b <= a.
Proof.
  unfold Qltb. rewrite negb_false_iff. apply Qle_bool_iff.
Qed.


Lemma py_min_spec (a b : Q) : py_min a b <= a /\ py_min a b <= b.
Proof.
  unfold py_min. destruct (Qltb b a) eqn:E.
  - apply Qltb_lt in E. lra.
  - apply Qltb_ge in E. lra.
Qed.

Lemma py_min_glb (a b c : Q) : c <= a -> c <= b -> c <= py_min a b.
Proof. intros Ha Hb. unfold py_min. destruct (Qltb b a); assumption. Qed.

Lemma py_max_spec (a b : Q) : a <= py_max a b /\ b <= py_max a b.
Proof.
  unfold py_max. destruct (Qltb a b) eqn:E.
  - apply Qltb_lt in E. lra.
  - apply Qltb_ge in E. lra.
Qed.

Lemma py_max_lub (a b c : Q) : a <= c -> b <= c -> py_max a b <= c.
Proof. intros Ha Hb. unfold py_max. destruct (Qltb a b); assumption. Qed.

(** The clamp [max(0, min(100, x))] lands in [[0, 100]]. *)
Lemma clamp_range (x : Q) : 0 <= py_max 0 (py_min 100 x) <= 100.
Proof.
  split.
  - apply py_max_spec.
  - apply py_max_lub; [lra | apply py_min_spec].
Qed.

Lemma round_half_even_floor (y : Q) :
  (Qfloor y <= round_half_even y <= Qfloor y + 1)%Z.
Proof.
  unfold round_half_even.
  destruct (Qltb _ _); [lia|].
  destruct (Qltb _ _); [lia|].
  destruct (Z.even _); lia.
Qed.

(** Rounding never crosses an integer. *)
Lemma round_half_even_ge (k : Z) (y : Q) :
  inject_Z k <= y -> (k <= round_half_even y)%Z.
Proof.
  intro H. apply Qfloor_resp_le in H. rewrite Qfloor_Z in H.
  pose proof (round_half_even_floor y). lia.
Qed.

Lemma round_half_even_le (k : Z) (y : Q) :
  y <= inject_Z k -> (round_half_even y <= k)%Z.
Proof.
  intro H.
  pose proof (Qfloor_resp_le _ _ H) as Hf. rewrite Qfloor_Z in Hf.
  destruct (Z.eq_dec (Qfloor y) k) as [Heq|Hne].
  - (* the floor is already [k]: the remainder is 0 *)
    unfold round_half_even.
    assert (Hr : y - inject_Z (Qfloor y) <= 0).
    { rewrite Heq. lra. }
    destruct (Qltb (y - inject_Z (Qfloor y)) (1#2)) eqn:E; [lia|].
    apply Qltb_ge in E. lra.
  - pose proof (round_half_even_floor y). lia.
Qed.


Lemma round2_ge_0 (x : Q) : 0 <= x -> 0 <= round2 x.
Proof.
  intro H. unfold round2.
  assert (Hk : (0 <= round_half_even (x * 100))%Z).
  { apply round_half_even_ge. change (inject_Z 0) with 0. lra. }
  apply Qle_shift_div_l; [lra|].
  rewrite Zle_Qle in Hk. change (inject_Z 0) with 0 in Hk. lra.
Qed.

Lemma round2_le_100 (x : Q) : x <= 100 -> round2 x <= 100.
Proof.
  intro H. unfold round2.
  assert (Hk : (round_half_even (x * 100) <= 10000)%Z).
  { apply round_half_even_le. change (inject_Z 10000) with 10000. lra. }
  apply Qle_shift_div_r; [lra|].
  rewrite Zle_Qle in Hk. change (inject_Z 10000) with 10000 in Hk. lra.
Qed.

Lemma round2_range (x : Q) : 0 <= x <= 100 -> 0 <= round2 x <= 100.
Proof.
  intros [H0 H1]. split; [apply round2_ge_0 | apply round2_le_100]; assumption.
Qed.


Lemma Qnat_nonneg (n : nat) : 0 <= Qnat n.
Proof.
  unfold Qnat. change 0 with (inject_Z 0). rewrite <- Zle_Qle. lia.
Qed.

Lemma Qnat_pos (n : nat) : (0 < n)%nat -> 0 < Qnat n.
Proof.
  intro H. unfold Qnat. change 0 with (inject_Z 0). rewrite <- Zlt_Qlt. lia.
Qed.

Lemma Qnat_le (n m : nat) : (n <= m)%nat -> Qnat n <= Qnat m.
Proof. intro H. unfold Qnat. rewrite <- Zle_Qle. lia. Qed.

(** A share [n/m * 100] with [n <= m] is a percentage. *)
Lemma share_range (n m : nat) :
  (n <= m)%nat -> (0 < m)%nat -> 0 <= Qnat n / Qnat m * 100 <= 100.
Proof.
  intros Hle Hm.
  pose proof (Qnat_pos m Hm) as Hp.
  pose proof (Qnat_nonneg n) as Hn.
  pose proof (Qnat_le n m Hle) as Hq.
  assert (0 <= Qnat n / Qnat m <= 1).
  { split.
    - apply Qle_shift_div_l; lra.
    - apply Qle_shift_div_r; lra. }
  lra.
Qed.


Lemma Qltb_wd (a a' b b' : Q) : a == a' -> b == b' -> Qltb a b = Qltb a' b'.
Proof.
  intros Ha Hb.
  destruct (Qltb a b) eqn:E, (Qltb a' b') eqn:E'; try reflexivity.
  - apply Qltb_lt in E. apply Qltb_ge in E'. lra.
  - apply Qltb_ge in E. apply Qltb_lt in E'. lra.
Qed.

(** Equal rationals round to the same integer, whatever their fractions. *)
Lemma round_half_even_wd (x y : Q) : x == y -> round_half_even x = round_half_even y.
Proof.
  intro H. unfold round_half_even.
  rewrite (Qfloor_comp x y H).
  rewrite (Qltb_wd (x - inject_Z (Qfloor y)) (y - inject_Z (Qfloor y)) (1#2) (1#2));
    [|lra|reflexivity].
  rewrite (Qltb_wd (1#2) (1#2) (x - inject_Z (Qfloor y)) (y - inject_Z (Qfloor y)));
    [|reflexivity|lra].
  reflexivity.
Qed.

Lemma round2_wd (x y : Q) : x == y -> round2 x = round2 y.
Proof.
  intro H. unfold round2.
  rewrite (round_half_even_wd (x * 100) (y * 100)); [reflexivity|].
  now rewrite H.
Qed.

Lemma py_min_Qmin (a b : Q) : py_min a b == Qmin a b.
Proof.
  unfold py_min. destruct (Qltb b a) eqn:E.
  - apply Qltb_lt in E. symmetry. apply Q.min_r. lra.
  - apply Qltb_ge in E. symmetry. apply Q.min_l. exact E.
Qed.

Lemma py_max_Qmax (a b : Q) : py_max a b == Qmax a b.
Proof.
  unfold py_max. destruct (Qltb a b) eqn:E.
  - apply Qltb_lt in E. symmetry. apply Q.max_r. lra.
  - apply Qltb_ge in E. symmetry. apply Q.max_l. exact E.
Qed.


End NumFacts.

(** ** Loops over neighbouring items *)

Module AdjacentFacts.

Import Adjacent.

Section Loop.

Variables A B : Type.
Variable d : A.
Variable f : A -> A -> B.

(** The index loop [for i in range(1, len(l))] reading [l[i-1]] and [l[i]]
    visits exactly the neighbouring pairs, in order. *)
Lemma index_loop_adj (l : list A) :
  map (fun i => f (nth (i - 1) l d) (nth i l d)) (seq 1 (length l - 1)) = adj_map f l.
Proof.
  induction l as [|a [|b tl] IH]; try reflexivity.
  replace (length (a :: b :: tl) - 1)%nat with (S (length tl)) by (cbn; lia).
  replace (length (b :: tl) - 1)%nat with (length tl) in IH by (cbn; lia).
  change (adj_map f (a :: b :: tl)) with (f a b :: adj_map f (b :: tl)).
  cbn [seq map]. f_equal.
  rewrite <- IH, <- seq_shift, map_map.
  apply map_ext_in. intros i Hi. apply in_seq in Hi.
  destruct i as [|i]; [lia|].
  cbn [nth Nat.sub]. rewrite Nat.sub_0_r.
  destruct i; reflexivity.
Qed.

Lemma adj_map_length (l : list A) : length (adj_map f l) = (length l - 1)%nat.
Proof.
  induction l as [|a [|b tl] IH]; try reflexivity.
  cbn [adj_map length] in *. rewrite IH. lia.
Qed.

End Loop.

Lemma fold_left_over_map {S I G : Type} (step : S -> G -> S) (g : I -> G)
    (l : list I) (init : S) :
  fold_left (fun st i => step st (g i)) l init = fold_left step (map g l) init.
Proof.
  revert init. induction l as [|i l IH]; intro init; [reflexivity|].
  cbn. apply IH.
Qed.

End AdjacentFacts.

(** ** Speech analyser *)

Module AudioFacts.

Import Audio NumFacts Samples.

Lemma gaps_adj (segments : list Segment) :
  gaps segments
  = Adjacent.adj_map (fun a b => seg_start b - seg_end a) segments.
Proof.
  reflexivity.
Qed.

(** The loop of [calculate_pause_metrics] is a fold over the gaps. *)
Lemma pause_loop_gaps (segments : list Segment) :
  pause_loop segments = fold_left pause_step (gaps segments) ([], 0%nat).
Proof.
  unfold pause_loop.
  rewrite (AdjacentFacts.fold_left_over_map pause_step (gap_at segments)).
  f_equal. rewrite gaps_adj.
  rewrite <- (AdjacentFacts.index_loop_adj _ _ seg0). reflexivity.
Qed.

Lemma pause_fold (gs pauses : list Q) (long : nat) :
  fold_left pause_step gs (pauses, long)
  = (pauses ++ filter (fun g => Qltb (1#2) g) gs, (long + count_gt 2 gs)%nat).
Proof.
  revert pauses long. induction gs as [|g gs IH]; intros pauses long.
  - cbn. now rewrite app_nil_r, Nat.add_0_r.
  - cbn [fold_left pause_step filter]. unfold count_gt. cbn [filter].
    destruct (Qltb (1#2) g) eqn:E1.
    + rewrite IH. rewrite <- app_assoc. cbn [app].
      destruct (Qltb 2 g) eqn:E2; unfold count_gt; cbn [length]; f_equal; lia.
    + rewrite IH. unfold count_gt.
      assert (E2 : Qltb 2 g = false).
      { apply Qltb_ge. apply Qltb_ge in E1. lra. }
      rewrite E2. reflexivity.
Qed.




(** One gap of three seconds among three segments: one pause, a long one,
    lasting 3.0 on average; six words over six seconds of speech are 60 words
    per minute. *)
Example one_long_gap_metrics :
  pause_frequency (calculate_pause_metrics one_long_gap) = 1%nat /\
  long_pauses (calculate_pause_metrics one_long_gap) = 1%nat /\
  average_pause_duration (calculate_pause_metrics one_long_gap) == 3 /\
  calculate_speech_rate one_long_gap 6 == 60.
Proof. repeat split. Qed.




Lemma fluency_score_range (filler_count word_count long_pauses pause_frequency : nat) :
  0 <= calculate_fluency_score filler_count word_count long_pauses pause_frequency <= 100.
Proof.
  unfold calculate_fluency_score.
  destruct (word_count =? 0)%nat; [lra|].
  apply round2_range, clamp_range.
Qed.






(** *** Tremor *)




Lemma np_diff_length (l : list Q) : length (np_diff l) = (length l - 1)%nat.
Proof.
  change (np_diff l) with (Adjacent.adj_map (fun a b => b - a) l).
  apply AdjacentFacts.adj_map_length.
Qed.









End AudioFacts.

(** ** Counting dictionaries *)

Module CountsFacts.

Import Counts.

Lemma total_from {K : Type} (counts : t K) (acc : nat) :
  fold_left (fun a kc => (a + snd kc)%nat) counts acc = (acc + total counts)%nat.
Proof.
  unfold total. revert acc.
  induction counts as [|kc counts IH]; intro acc; cbn [fold_left].
  - lia.
  - rewrite IH, (IH (0 + snd kc)%nat). lia.
Qed.

Lemma total_cons {K : Type} (kc : K * nat) (counts : t K) :
  total (kc :: counts) = (snd kc + total counts)%nat.
Proof. unfold total at 1. cbn [fold_left]. now rewrite total_from. Qed.

(** Three different labels never claim more than all the samples. *)
Lemma three_gets_le_total (a b c : string) (counts : t string) :
  a <> b -> a <> c -> b <> c ->
  (get String.eqb a counts + get String.eqb b counts + get String.eqb c counts
   <= total counts)%nat.
Proof.
  intros Hab Hac Hbc.
  induction counts as [|[k n] counts IH]; [cbn; lia|].
  rewrite total_cons. cbn [get snd].
  destruct (String.eqb_spec a k), (String.eqb_spec b k), (String.eqb_spec c k);
    subst; try congruence; lia.
Qed.

End CountsFacts.

(** ** Facial analyser *)

Module VideoFacts.

Import Video NumFacts.

Lemma variability_range (emotion_changes analyzed_frames : nat) :
  let variability :=
    if (1 <? analyzed_frames)%nat
    then (Qnat emotion_changes / Qnat (analyzed_frames - 1)) * 100 else 0 in
  0 <= round2 (py_min 100 variability) <= 100.
Proof.
  cbv zeta. apply round2_range. split.
  - apply py_min_glb; [lra|].
    destruct (Nat.ltb_spec 1 analyzed_frames) as [H|H]; [|lra].
    assert (Hp : 0 < Qnat (analyzed_frames - 1)) by (apply Qnat_pos; lia).
    pose proof (Qnat_nonneg emotion_changes) as Hn.
    assert (0 <= Qnat emotion_changes / Qnat (analyzed_frames - 1)).
    { apply Qle_shift_div_l; lra. }
    lra.
  - apply py_min_spec.
Qed.

Lemma video_scores_range
    (emotion_counts : emotion_counts_t)
    (emotion_changes stress_expressions analyzed_frames : nat) (duration : Q) :
  let m := calculate_video_metrics emotion_counts emotion_changes stress_expressions
             analyzed_frames duration in
  0 <= tension_index m <= 100 /\
  0 <= expressiveness_score m <= 100 /\
  0 <= emotional_variability m <= 100.
Proof.
  cbv zeta. unfold calculate_video_metrics.
  cbn [tension_index expressiveness_score emotional_variability].
  pose proof (variability_range emotion_changes analyzed_frames) as Hv.
  cbv zeta in Hv.
  split; [|split].
  - apply round2_range.
    destruct (Nat.ltb_spec 0 (Counts.total emotion_counts)) as [H|H]; [|lra].
    apply share_range; [|exact H].
    apply CountsFacts.three_gets_le_total; discriminate.
  - apply round2_range. split.
    + apply py_min_glb; [lra|].
      pose proof (Qnat_nonneg (Counts.size emotion_counts * 15)). lra.
    + apply py_min_spec.
  - exact Hv.
Qed.

End VideoFacts.

(** ** Semantic analyser: segment statistics *)

Module DensityFacts.

Import Transcript NumFacts.

Lemma speech_time_from (segments : list Segment) (acc : Q) :
  fold_left (fun a seg => a + (seg_end seg - seg_start seg)) segments acc
  == acc + speech_time segments.
Proof.
  unfold speech_time. revert acc.
  induction segments as [|s segments IH]; intro acc; cbn [fold_left].
  - lra.
  - rewrite IH, (IH (0 + _)). lra.
Qed.

Lemma speech_time_cons (s : Segment) (segments : list Segment) :
  speech_time (s :: segments) == (seg_end s - seg_start s) + speech_time segments.
Proof.
  unfold speech_time at 1. cbn [fold_left]. rewrite speech_time_from. lra.
Qed.

(** Ordered segments that do not overlap fit between their first start and
    their last end. *)
Lemma ordered_speech_time (t : Q) (segments : list Segment) :
  Reference.ordered_from t segments ->
  0 <= speech_time segments /\
  (segments <> [] -> t + speech_time segments <= seg_end (last segments seg0)).
Proof.
  revert t. induction segments as [|s rest IH]; intros t H.
  - split; [unfold speech_time; cbn; lra | congruence].
  - destruct H as (Hstart & Hlen & Hrest).
    destruct (IH _ Hrest) as [Hpos Hlast].
    rewrite speech_time_cons. split; [lra|]. intros _.
    destruct rest as [|s' rest'].
    + cbn [last]. unfold speech_time. cbn. lra.
    + change (last (s :: s' :: rest') seg0) with (last (s' :: rest') seg0).
      assert (Hne : s' :: rest' <> []) by discriminate.
      specialize (Hlast Hne). lra.
Qed.

Lemma content_density_range (segments : list Segment) (total_duration : Q) :
  0 <= speech_time segments <= total_duration ->
  0 <= calculate_content_density segments total_duration <= 100.
Proof.
  intros [H0 H1]. unfold calculate_content_density, Qeqb.
  destruct (Qeq_bool total_duration 0) eqn:E; [lra|].
  apply Qeq_bool_neq in E.
  assert (Hp : 0 < total_duration).
  { destruct (Qlt_le_dec 0 total_duration) as [Hlt|Hle]; [exact Hlt|].
    exfalso. apply E. lra. }
  apply round2_range.
  assert (0 <= speech_time segments / total_duration <= 1).
  { split.
    - apply Qle_shift_div_l; lra.
    - apply Qle_shift_div_r; lra. }
  lra.
Qed.

Lemma ordered_total_bound (segments : list Segment) :
  Reference.ordered_from 0 segments ->
  0 <= speech_time segments <= total_duration_of segments.
Proof.
  intro H.
  destruct (ordered_speech_time 0 segments H) as [Hpos Hlast].
  split; [exact Hpos|].
  destruct segments as [|s rest].
  - unfold speech_time, total_duration_of. cbn. lra.
  - assert (Hne : s :: rest <> []) by discriminate.
    specialize (Hlast Hne). unfold total_duration_of. lra.
Qed.

Lemma ordered_density_range (segments : list Segment) :
  Reference.ordered_from 0 segments ->
  0 <= calculate_content_density segments (total_duration_of segments) <= 100.
Proof.
  intro H. apply content_density_range, ordered_total_bound, H.
Qed.

End DensityFacts.

(** ** Scores stay percentages *)

Module ScoreRange.

Import Audio Video Transcript NumFacts Samples.

(** [max(0, min(100, x))] is a finite value in [[0, 100]] whatever numpy
    produced: an infinity is cut to a bound and not-a-number to 100. *)
Lemma np_clamp_range (x : npfloat) :
  exists q, max_0 (min_100 x) = Fin q /\ 0 <= q <= 100.
Proof.
  destruct x as [q| | |]; unfold min_100, max_0; cbn [np_lt].
  - destruct (Qltb q 100) eqn:E1; cbn [np_gt].
    + destruct (Qltb 0 q) eqn:E2.
      * exists q. apply Qltb_lt in E1, E2. split; [reflexivity | lra].
      * exists 0. split; [reflexivity | lra].
    + exists 100. split; [reflexivity | lra].
  - exists 100. split; [reflexivity | lra].
  - exists 0. split; [reflexivity | lra].
  - exists 100. split; [reflexivity | lra].
Qed.

Lemma audio_scores_range (np_std : list Q -> Q) (w : World) (path : string)
    (rt rt' : Runtime) (m : AudioMetrics) :
  analyze_audio np_std w path rt = (AudioOk m, rt') ->
  0 <= am_speech_fluency_score m <= 100 /\
  exists q, am_volume_stability m = Fin q /\ 0 <= q <= 100.
Proof.
  unfold analyze_audio, transcribe.
  destruct (path_exists w path); cbn [negb]; [|discriminate].
  intro H. injection H as Hm _. subst m.
  cbn [am_speech_fluency_score am_volume_stability].
  split; [apply AudioFacts.fluency_score_range|].
  destruct (librosa w) as [load|].
  - destruct (load path) as [pitch_track rms].
    cbn [extract_acoustic_features ac_volume_stability].
    apply np_clamp_range.
  - exists 75. cbn. split; [reflexivity | lra].
Qed.

(** C1 (as amended).  In every result of the speech analyser
    [speech_fluency_score] and [volume_stability] lie in [[0, 100]]; for all
    inputs of [calculate_video_metrics] so do [facial_tension_index],
    [facial_expressiveness_score] and [facial_emotional_variability]; and
    [speech_content_density] lies in [[0, 100]] whenever the summed segment
    durations lie between 0 and the last segment's end time, as they do for
    segments in time order that do not overlap. *)
Theorem score_fields_within_percent_range :
  (forall (np_std : list Q -> Q) (w : World) (path : string) (rt rt' : Runtime)
          (m : AudioMetrics),
     analyze_audio np_std w path rt = (AudioOk m, rt') ->
     0 <= am_speech_fluency_score m <= 100 /\
     exists q, am_volume_stability m = Fin q /\ 0 <= q <= 100) /\
  (forall (emotion_counts : emotion_counts_t)
          (emotion_changes stress_expressions analyzed_frames : nat) (duration : Q),
     let m := calculate_video_metrics emotion_counts emotion_changes
                stress_expressions analyzed_frames duration in
     0 <= tension_index m <= 100 /\
     0 <= expressiveness_score m <= 100 /\
     0 <= emotional_variability m <= 100) /\
  (forall segments : list Segment,
     0 <= speech_time segments <= total_duration_of segments ->
     0 <= calculate_content_density segments (total_duration_of segments) <= 100) /\
  (forall segments : list Segment,
     Reference.ordered_from 0 segments ->
     0 <= speech_time segments <= total_duration_of segments).
Proof.
  split; [exact audio_scores_range|].
  split; [exact VideoFacts.video_scores_range|].
  split.
  - intros segments H. now apply DensityFacts.content_density_range.
  - exact DensityFacts.ordered_total_bound.
Qed.

Lemma score_fields_within_percent_range_witness :
  (exists m rt',
     analyze_audio std0 speaking_world "a.wav" rt0 = (AudioOk m, rt')
     /\ 0 <= am_speech_fluency_score m <= 100
     /\ exists q, am_volume_stability m = Fin q /\ 0 <= q <= 100) /\
  (0 <= speech_time quiet_segments <= total_duration_of quiet_segments
   /\ 0 <= calculate_content_density quiet_segments (total_duration_of quiet_segments)
      <= 100).
Proof.
  split.
  - eexists. eexists. split; [reflexivity|].
    exact (proj1 score_fields_within_percent_range
             std0 speaking_world "a.wav"%string rt0 _ _ eq_refl).
  - assert (H : 0 <= speech_time quiet_segments <= total_duration_of quiet_segments).
    { split; vm_compute; discriminate. }
    split; [exact H|].
    exact (proj1 (proj2 (proj2 score_fields_within_percent_range)) quiet_segments H).
Defined.

(** C1 as worded fails for the content density, which is not clamped: two
    overlapping segments of a ten-second recording give 150. *)
Lemma content_density_exceeds_100 :
  total_duration_of overlapping_segments == 10 /\
  speech_time overlapping_segments == 15 /\
  calculate_content_density overlapping_segments
    (total_duration_of overlapping_segments) == 150 /\
  ~ (0 <= calculate_content_density overlapping_segments
            (total_duration_of overlapping_segments) <= 100).
Proof.
  split; [reflexivity|]. split; [reflexivity|]. split; [reflexivity|].
  intros [_ H]. vm_compute in H. apply H. reflexivity.
Qed.

End ScoreRange.

(** ** Step windows *)

Module StepwiseFacts.

Import Stepwise NumFacts Samples.

(** *** The windows *)

Lemma stepwise_length (video_data : video_data_t) (steps : list Step) :
  length (generate_stepwise_metrics video_data steps) = length steps.
Proof.
  unfold generate_stepwise_metrics.
  rewrite length_map, length_combine, length_seq. lia.
Qed.


Lemma stepwise_metrics_of_bounds (video_data : video_data_t) (steps : list Step) :
  Forall (fun w => sm_metrics w
                   = extract_metrics_for_timerange video_data (sm_start w) (sm_end w))
         (generate_stepwise_metrics video_data steps).
Proof.
  unfold generate_stepwise_metrics. apply Forall_forall.
  intros w Hw. apply in_map_iff in Hw. destruct Hw as (ist & <- & _). reflexivity.
Qed.

(** Bounds of the windows of a suffix [suf] that starts at index [k]. *)
Lemma bounds_from (all suf : list Step) (ts : list Q) (k : nat) :
  skipn k all = suf ->
  map step_time suf = map Some ts ->
  map (fun ist : nat * Step => (step_start_of (snd ist), step_end_of all (fst ist)))
      (combine (seq k (length suf)) suf)
  = Reference.windows ts.
Proof.
  revert ts k. induction suf as [|s suf IH]; intros ts k Hskip Hts.
  - destruct ts; [reflexivity | discriminate].
  - destruct ts as [|t ts]; [discriminate|].
    cbn [map] in Hts. injection Hts as Ht Hts'.
    assert (Hnext : skipn (S k) all = suf).
    { replace (S k) with (1 + k)%nat by lia.
      rewrite <- skipn_skipn, Hskip. reflexivity. }
    cbn [length seq combine map fst snd Reference.windows].
    f_equal.
    + unfold step_start_of, step_end_of. rewrite Ht. f_equal.
      replace (k + 1)%nat with (S k) by lia.
      assert (Hn : nth_error all (S k) = hd_error suf).
      { rewrite <- Hnext. rewrite <- (Nat.add_0_r (S k)) at 1.
        rewrite <- nth_error_skipn. now destruct (skipn (S k) all). }
      rewrite Hn.
      destruct suf as [|s' suf']; destruct ts as [|t' ts']; try discriminate.
      * reflexivity.
      * cbn [map] in Hts'. injection Hts' as Ht' _. cbn [hd_error]. now rewrite Ht'.
    + apply IH; assumption.
Qed.

(** With a time on every step the windows are [[t_i, t_{i+1})], the last one
    closed by the sentinel. *)
Lemma stepwise_bounds (video_data : video_data_t) (steps : list Step) (ts : list Q) :
  map step_time steps = map Some ts ->
  map (fun w => (sm_start w, sm_end w)) (generate_stepwise_metrics video_data steps)
  = Reference.windows ts.
Proof.
  intro Hts. unfold generate_stepwise_metrics. rewrite map_map. cbn [sm_start sm_end].
  now apply (bounds_from steps steps ts 0).
Qed.

(** *** One window *)

Lemma in_range_iff (a b t : Q) : in_range a b t = true <-> a <= t /\ t < b.
Proof.
  unfold in_range. rewrite andb_true_iff, Qle_bool_iff, Qltb_lt. reflexivity.
Qed.

Lemma filter_emotions_pooled (video_data : video_data_t) (a b : Q) :
  filter_emotions video_data a b
  = filter (fun e => in_range a b (entry_time e)) (Reference.all_samples video_data).
Proof.
  unfold filter_emotions, Reference.all_samples.
  induction video_data as [|p video_data IH]; [reflexivity|].
  cbn [flat_map]. rewrite filter_app. now rewrite IH.
Qed.


Lemma total_incr {K : Type} (eqb : K -> K -> bool) (k : K) (counts : Counts.t K) :
  Counts.total (Counts.incr eqb k counts) = S (Counts.total counts).
Proof.
  induction counts as [|[k' c] counts IH].
  - reflexivity.
  - cbn [Counts.incr]. destruct (eqb k k').
    + rewrite !CountsFacts.total_cons. cbn [snd]. lia.
    + rewrite !CountsFacts.total_cons, IH. cbn [snd]. lia.
Qed.

Lemma total_count_from (entries : list EmotionEntry) (counts : Counts.t (option string)) :
  Counts.total
    (fold_left (fun cs e => Counts.incr label_eqb (e_emotion e) cs) entries counts)
  = (Counts.total counts + length entries)%nat.
Proof.
  revert counts. induction entries as [|e entries IH]; intro counts; cbn [fold_left length].
  - lia.
  - rewrite IH, total_incr. lia.
Qed.

(** Every sample is counted once. *)
Lemma total_count_emotions (entries : list EmotionEntry) :
  Counts.total (count_emotions entries) = length entries.
Proof. unfold count_emotions. rewrite total_count_from. reflexivity. Qed.

(** *** Percentages *)









End StepwiseFacts.

(** ** Report fusion *)

Module PipelineFacts.

Import Py Pipeline Samples.





(** The report exists as soon as the session metadata has its five keys, the
    first participant (if any) is a dict and the two confidence inputs are
    numbers. *)
Lemma report_defined
    (session_id : string) (session_metadata audio_results transcript_results
     video_results : dict) (now : Q) :
  Forall (fun k => has_key k session_metadata = true)
         [ "session_id"; "session_type"; "session_date"; "session_duration";
           "session_duration_seconds" ]%string ->
  aggregate_video_metrics video_results <> None ->
  calculate_overall_confidence audio_results transcript_results <> None ->
  generate_comprehensive_report session_id session_metadata audio_results
    transcript_results video_results now <> None.
Proof.
  intros Hkeys Hagg Hconf. unfold generate_comprehensive_report.
  destruct (aggregate_video_metrics video_results); [|congruence].
  destruct (calculate_overall_confidence audio_results transcript_results);
    [|congruence].
  unfold has_key in Hkeys.
  repeat match goal with
         | H : Forall _ (_ :: _) |- _ =>
             let Hh := fresh in
             pose proof (Forall_inv H) as Hh; apply Forall_inv_tail in H; cbv beta in Hh
         end.
  repeat match goal with
         | H : (match dict_lookup ?k ?d with Some _ => true | None => false end) = true |- _ =>
             destruct (dict_lookup k d); [clear H | discriminate H]
         end.
  cbn [bind]. discriminate.
Qed.

End PipelineFacts.

(** ** Tokens *)

Module TextFacts.

Import Text.

Lemma has_space_app (a b : string) :
  has_space (a ++ b)%string = has_space a || has_space b.
Proof.
  induction a as [|c a IH]; [reflexivity|].
  cbn [append has_space]. rewrite IH. apply orb_assoc.
Qed.

(** Every token is non-empty and free of white space. *)
Lemma split_from_tokens (s cur : string) :
  has_space cur = false ->
  forall w, In w (split_from cur s) -> has_space w = false /\ is_empty w = false.
Proof.
  revert cur. induction s as [|c s IH]; intros cur Hcur w Hin.
  - cbn [split_from] in Hin. destruct (is_empty cur) eqn:E; [contradiction|].
    destruct Hin as [<-|[]]. split; assumption.
  - cbn [split_from] in Hin. destruct (is_space c) eqn:Ec.
    + destruct (is_empty cur) eqn:E.
      * apply (IH EmptyString); [reflexivity | exact Hin].
      * destruct Hin as [<-|Hin]; [split; assumption|].
        apply (IH EmptyString); [reflexivity | exact Hin].
    + apply (IH (cur ++ String c EmptyString)%string); [|exact Hin].
      rewrite has_space_app, Hcur. cbn [has_space]. now rewrite Ec.
Qed.

Lemma words_no_space (text w : string) :
  In w (words_of text) -> has_space w = false.
Proof.
  intro H. apply (split_from_tokens (lower text) EmptyString eq_refl w H).
Qed.

Lemma str_in_In (w : string) (keywords : list string) :
  str_in w keywords = true <-> In w keywords.
Proof.
  unfold str_in. rewrite existsb_exists. split.
  - intros (k & Hk & E). apply String.eqb_eq in E. now subst.
  - intro H. exists w. split; [exact H | apply String.eqb_refl].
Qed.

(** A token differs from every entry that has a blank in it. *)
Lemma token_not_spaced (w k : string) :
  has_space w = false -> has_space k = true -> String.eqb w k = false.
Proof.
  intros Hw Hk. destruct (String.eqb_spec w k) as [E|]; [|reflexivity].
  subst. congruence.
Qed.

End TextFacts.

(** ** Semantic analyser: fallback and degradation *)

Module TranscriptFacts.

Import Py Text Transcript Samples.

(** *** Keyword lists seen from a token *)

Lemma fillers_single (w : string) :
  has_space w = false ->
  str_in w Audio.filler_words = str_in w Reference.single_word_fillers.
Proof.
  intro Hw. unfold str_in, Audio.filler_words, Reference.single_word_fillers.
  cbn [existsb].
  rewrite (TextFacts.token_not_spaced w "you know" Hw eq_refl).
  rewrite (TextFacts.token_not_spaced w "sort of" Hw eq_refl).
  rewrite (TextFacts.token_not_spaced w "kind of" Hw eq_refl).
  reflexivity.
Qed.

Lemma crisis_single (w : string) :
  has_space w = false ->
  str_in w crisis_keywords = str_in w Reference.single_word_crisis.
Proof.
  intro Hw. unfold str_in, crisis_keywords, Reference.single_word_crisis.
  cbn [existsb].
  rewrite (TextFacts.token_not_spaced w "kill myself" Hw eq_refl).
  rewrite (TextFacts.token_not_spaced w "end it" Hw eq_refl).
  rewrite (TextFacts.token_not_spaced w "give up" Hw eq_refl).
  destruct (String.eqb w "suicide"), (String.eqb w "hopeless"),
           (String.eqb w "worthless"); reflexivity.
Qed.

Lemma count_fillers_from (words : list string) (n : nat) :
  fold_left (fun k w => if str_in w Audio.filler_words then S k else k) words n
  = (n + length (filter (fun w => str_in w Audio.filler_words) words))%nat.
Proof.
  revert n. induction words as [|w words IH]; intro n; cbn [fold_left filter].
  - cbn. lia.
  - rewrite IH. destruct (str_in w Audio.filler_words); cbn [length]; lia.
Qed.

Lemma count_fillers_filter (words : list string) :
  Audio.count_fillers words
  = length (filter (fun w => str_in w Audio.filler_words) words).
Proof. unfold Audio.count_fillers. now rewrite count_fillers_from. Qed.

Lemma crisis_found (transcript : string) :
  Reference.crisis_field (get_fallback_analysis transcript) "crisis_keywords_found"
  = Some (strs (crisis_words (words_of transcript))).
Proof. reflexivity. Qed.

(** C10.  Both the filler counter and the fallback matcher work on the tokens
    of [text.lower().split()] and test whole-token equality.  No token has
    white space in it, so none equals a multi-word entry (["you know"],
    ["sort of"], ["kind of"], ["kill myself"], ["end it"], ["give up"]):
    [filler_count] counts the tokens among um, uh, ah, like, and
    [crisis_keywords_found] lists the tokens among suicide, hopeless,
    worthless.  A keyword with punctuation attached, as in ["hopeless."], is a
    different token and is not counted. *)
Theorem multi_word_keywords_never_match :
  (forall text w, In w (words_of text) ->
     has_space w = false /\ ~ In w Reference.multi_word_entries) /\
  (forall (np_std : list Q -> Q) (w : Audio.World) (path : string)
          (rt rt' : Audio.Runtime) (m : Audio.AudioMetrics),
     Audio.analyze_audio np_std w path rt = (Audio.AudioOk m, rt') ->
     Audio.am_filler_count m
     = length (filter (fun t => str_in t Reference.single_word_fillers)
                      (words_of (Audio.am_transcript m)))) /\
  (forall transcript,
     Reference.crisis_field (get_fallback_analysis transcript) "crisis_keywords_found"
     = Some (strs (filter (fun t => str_in t Reference.single_word_crisis)
                          (words_of transcript)))) /\
  (Audio.count_fillers (words_of "you know it is sort of kind of") = 0%nat
   /\ crisis_words (words_of "I give up and will end it or kill myself") = []
   /\ words_of "I feel hopeless." = [ "i"; "feel"; "hopeless." ]%string
   /\ crisis_words (words_of "I feel hopeless.") = []).
Proof.
  split; [|split; [|split]].
  - intros text w Hin.
    pose proof (TextFacts.words_no_space text w Hin) as Hw.
    split; [exact Hw|].
    intro Hm. cbn in Hm.
    repeat (destruct Hm as [Hm|Hm]; [subst w; discriminate Hw|]).
    contradiction.
  - intros np_std w path rt rt' m.
    unfold Audio.analyze_audio, Audio.transcribe.
    destruct (Audio.path_exists w path); cbn [negb]; [|discriminate].
    intro H. injection H as Hm _. subst m.
    cbn [Audio.am_filler_count Audio.am_transcript].
    rewrite count_fillers_filter. f_equal.
    apply filter_ext_in. intros t Ht.
    apply fillers_single, (TextFacts.words_no_space _ _ Ht).
  - intro transcript. rewrite crisis_found. do 2 f_equal.
    unfold crisis_words, matching.
    apply filter_ext_in. intros t Ht.
    apply crisis_single, (TextFacts.words_no_space _ _ Ht).
  - repeat split.
Qed.


(** *** Crisis indicators of the fallback *)

(** C7 (as amended).  The fallback sets [hopelessness_language] exactly when
    some token of [transcript.lower().split()] is ["hopeless"] or
    ["worthless"], in particular whenever ["hopeless"] is a token;
    [crisis_keywords_found] lists the tokens that are crisis keywords, in
    order; [risk_level] is ["high"] when at least one token is a crisis
    keyword, and ["none"] when no token is one and none of the multi-word
    keywords occurs in the lowercased transcript.  (What the level is when a
    multi-word keyword occurs is not stated here.) *)
Theorem fallback_crisis_by_token (transcript : string) :
  let words := words_of transcript in
  let r := get_fallback_analysis transcript in
  (In "hopeless"%string words ->
     Reference.crisis_field r "hopelessness_language" = Some (PBool true)) /\
  (Reference.crisis_field r "hopelessness_language" = Some (PBool true)
   <-> In "hopeless"%string words \/ In "worthless"%string words) /\
  Reference.crisis_field r "crisis_keywords_found"
  = Some (strs (filter (fun t => str_in t crisis_keywords) words)) /\
  ((exists t, In t words /\ In t crisis_keywords) ->
     Reference.crisis_field r "risk_level" = Some (PStr "high")) /\
  (~ (exists t, In t words /\ In t crisis_keywords) ->
   (forall k, In k Reference.multi_word_crisis -> contains k (lower transcript) = false) ->
     Reference.crisis_field r "risk_level" = Some (PStr "none")).
Proof.
  cbv zeta.
  assert (Hh : forall k, str_in k (words_of transcript) = true
                         <-> In k (words_of transcript)).
  { intro k. unfold str_in. rewrite existsb_exists. split.
    - intros (x & Hx & E). apply String.eqb_eq in E. now subst.
    - intro H. exists k. split; [exact H | apply String.eqb_refl]. }
  assert (Hflag :
    Reference.crisis_field (get_fallback_analysis transcript) "hopelessness_language"
    = Some (PBool (hopelessness_language (words_of transcript)))) by reflexivity.
  assert (Hrisk :
    Reference.crisis_field (get_fallback_analysis transcript) "risk_level"
    = Some (PStr (risk_level (words_of transcript)))) by reflexivity.
  assert (Hfound : (0 < length (crisis_words (words_of transcript)))%nat
                   <-> exists t, In t (words_of transcript) /\ In t crisis_keywords).
  { unfold crisis_words, matching. split.
    - intro Hlen.
      destruct (filter _ _) as [|t l] eqn:E; [cbn in Hlen; lia|].
      assert (Hin : In t (filter (fun w => str_in w crisis_keywords) (words_of transcript))).
      { rewrite E. now left. }
      apply filter_In in Hin. destruct Hin as [Hw Hk].
      exists t. split; [exact Hw | now apply TextFacts.str_in_In].
    - intros (t & Hw & Hk).
      assert (Hin : In t (filter (fun w => str_in w crisis_keywords) (words_of transcript))).
      { apply filter_In. split; [exact Hw | now apply TextFacts.str_in_In]. }
      destruct (filter _ _); [contradiction | cbn; lia]. }
  split; [|split; [|split; [|split]]].
  - intro H. rewrite Hflag. unfold hopelessness_language.
    apply Hh in H. now rewrite H.
  - rewrite Hflag. unfold hopelessness_language. rewrite <- !Hh. split.
    + intro H. injection H as H. now apply orb_true_iff.
    + intro H. apply orb_true_iff in H. now rewrite H.
  - reflexivity.
  - intro H. rewrite Hrisk. unfold risk_level. apply Hfound in H.
    apply Nat.ltb_lt in H. now rewrite H.
  - intros H _. rewrite Hrisk. unfold risk_level.
    destruct (Nat.ltb_spec 0 (length (crisis_words (words_of transcript)))) as [Hp|_];
      [|reflexivity].
    exfalso. apply H, Hfound, Hp.
Qed.

Lemma fallback_crisis_by_token_witness :
  (In "hopeless"%string (words_of "I feel Hopeless today") /\
   Reference.crisis_field (get_fallback_analysis "I feel Hopeless today")
     "hopelessness_language" = Some (PBool true) /\
   Reference.crisis_field (get_fallback_analysis "I feel Hopeless today")
     "risk_level" = Some (PStr "high")) /\
  (~ (exists t, In t (words_of "I feel fine") /\ In t crisis_keywords) /\
   (forall k, In k Reference.multi_word_crisis ->
              contains k (lower "I feel fine") = false) /\
   Reference.crisis_field (get_fallback_analysis "I feel fine") "risk_level"
   = Some (PStr "none")).
Proof.
  split.
  - assert (Hin : In "hopeless"%string (words_of "I feel Hopeless today")).
    { vm_compute. tauto. }
    split; [exact Hin|]. split.
    + exact (proj1 (fallback_crisis_by_token "I feel Hopeless today") Hin).
    + apply (proj1 (proj2 (proj2 (proj2 (fallback_crisis_by_token "I feel Hopeless today"))))).
      exists "hopeless"%string. split; [exact Hin | cbn; tauto].
  - assert (Hno : ~ (exists t, In t (words_of "I feel fine") /\ In t crisis_keywords)).
    { intros (t & Ht & Hk). vm_compute in Ht.
      repeat (destruct Ht as [<-|Ht]; [apply TextFacts.str_in_In in Hk; discriminate Hk|]).
      contradiction. }
    assert (Hmw : forall k, In k Reference.multi_word_crisis ->
                            contains k (lower "I feel fine") = false).
    { intros k Hk. cbn in Hk.
      repeat (destruct Hk as [<-|Hk]; [reflexivity|]). contradiction. }
    split; [exact Hno|]. split; [exact Hmw|].
    exact (proj2 (proj2 (proj2 (proj2 (fallback_crisis_by_token "I feel fine")))) Hno Hmw).
Defined.

(** C7 as worded fails on text with punctuation: the transcript
    ["I feel hopeless."] contains ["hopeless"], yet its tokens are [i],
    [feel], [hopeless.] and nothing is flagged. *)
Lemma punctuated_hopeless_not_flagged :
  contains "hopeless" "I feel hopeless." = true /\
  words_of "I feel hopeless." = [ "i"; "feel"; "hopeless." ]%string /\
  Reference.crisis_field (get_fallback_analysis "I feel hopeless.")
    "hopelessness_language" = Some (PBool false) /\
  Reference.crisis_field (get_fallback_analysis "I feel hopeless.")
    "crisis_keywords_found" = Some (PList []) /\
  Reference.crisis_field (get_fallback_analysis "I feel hopeless.")
    "risk_level" = Some (PStr "none").
Proof. repeat split. Qed.

(** *** Degradation *)


Lemma no_result_llm_failure (w : LLMWorld) :
  llm_request w = None -> Reference.llm_failure w.
Proof.
  unfold llm_request.
  destruct (http_post w) as [|ok body] eqn:H; [intros _; now apply Reference.request_raised|].
  destruct ok; [|intros _; now apply (Reference.error_status w body)].
  destruct body as [result|]; [|intros _; now apply Reference.body_not_json].
  cbn [bind].
  destruct (message_content result) as [content|] eqn:Hc;
    [|intros _; now apply (Reference.content_missing w result)].
  cbn [bind].
  destruct content as [| | | |text| |];
    try (intros _; apply (Reference.content_not_text w result _ H Hc); discriminate).
  intro Hj. now apply (Reference.content_not_json w result text).
Qed.





Lemma multi_word_keywords_never_match_witness :
  In "like"%string (words_of "Um I feel like going") /\
  has_space "like" = false /\
  (exists m rt',
     Audio.analyze_audio std0 speaking_world "a.wav" rt0 = (Audio.AudioOk m, rt')
     /\ Audio.am_filler_count m
        = length (filter (fun t => str_in t Reference.single_word_fillers)
                         (words_of (Audio.am_transcript m)))).
Proof.
  assert (Hin : In "like"%string (words_of "Um I feel like going")).
  { vm_compute. tauto. }
  split; [exact Hin|]. split.
  - exact (proj1 (proj1 multi_word_keywords_never_match
                    "Um I feel like going"%string "like"%string Hin)).
  - eexists. eexists. split; [reflexivity|].
    exact (proj1 (proj2 multi_word_keywords_never_match)
             std0 speaking_world "a.wav"%string rt0 _ _ eq_refl).
Defined.

End TranscriptFacts.

(** ** Missing input *)

Module MissingInput.

Import Audio Samples.

(** C9.  If the audio path does not exist, [analyze_audio] returns the error
    result at once: the model is not loaded and the recogniser is not called
    (the runtime is left as it was), and no metric is produced.  When the
    path exists the recogniser is called on it. *)
Theorem missing_audio_no_asr
    (np_std : list Q -> Q) (w : World) (audio_path : string) (rt : Runtime) :
  (path_exists w audio_path = false ->
     analyze_audio np_std w audio_path rt = (AudioError "Audio file not found", rt)) /\
  (path_exists w audio_path = true ->
     exists m,
       analyze_audio np_std w audio_path rt
       = (AudioOk m,
          {| model_loaded := true;
             asr_trace := asr_trace (load_model rt) ++ [Transcribe audio_path] |})).
Proof.
  unfold analyze_audio, transcribe. split; intro H; rewrite H; cbn [negb].
  - reflexivity.
  - eexists. f_equal. f_equal.
    unfold load_model. destruct (model_loaded rt) eqn:E; [exact E | reflexivity].
Qed.

Lemma missing_audio_no_asr_witness :
  path_exists missing_world "gone.wav" = false /\
  analyze_audio std0 missing_world "gone.wav" rt0
  = (AudioError "Audio file not found", rt0) /\
  asr_trace (snd (analyze_audio std0 missing_world "gone.wav" rt0)) = [] /\
  path_exists speaking_world "a.wav" = true /\
  asr_trace (snd (analyze_audio std0 speaking_world "a.wav" rt0))
  = [ LoadModel; Transcribe "a.wav" ].
Proof.
  assert (H : path_exists missing_world "gone.wav" = false) by reflexivity.
  pose proof (proj1 (missing_audio_no_asr std0 missing_world "gone.wav" rt0) H) as E.
  split; [exact H|]. split; [exact E|]. split; [now rewrite E|].
  assert (H' : path_exists speaking_world "a.wav" = true) by reflexivity.
  split; [exact H'|].
  destruct (proj2 (missing_audio_no_asr std0 speaking_world "a.wav" rt0) H') as [m Em].
  rewrite Em. reflexivity.
Defined.

End MissingInput.

(** ** Counting dictionaries: lookup after insertion *)

Module CountsMore.

Import Counts.

Section Keyed.

Variable K : Type.
Variable eqb : K -> K -> bool.
Hypothesis eqb_spec : forall a b : K, reflect (a = b) (eqb a b).

Lemma get_incr_same (k : K) (counts : t K) :
  get eqb k (incr eqb k counts) = S (get eqb k counts).
Proof.
  induction counts as [|[k' c] counts IH]; cbn [incr get].
  - destruct (eqb_spec k k); [reflexivity | congruence].
  - destruct (eqb k k') eqn:E; cbn [get]; rewrite E; [reflexivity | exact IH].
Qed.

Lemma get_incr_other (k k' : K) (counts : t K) :
  k <> k' -> get eqb k' (incr eqb k counts) = get eqb k' counts.
Proof.
  intro Hne. induction counts as [|[k0 c] counts IH]; cbn [incr get].
  - destruct (eqb_spec k' k); [congruence | reflexivity].
  - destruct (eqb_spec k k0) as [->|Hk]; cbn [get].
    + destruct (eqb_spec k' k0); [congruence | reflexivity].
    + destruct (eqb k' k0); [reflexivity | exact IH].
Qed.

Lemma keys_incr (k : K) (counts : t K) :
  map fst (incr eqb k counts)
  = if existsb (eqb k) (map fst counts) then map fst counts else map fst counts ++ [k].
Proof.
  induction counts as [|[k' c] counts IH]; cbn [incr map existsb fst app].
  - reflexivity.
  - destruct (eqb k k') eqn:E; cbn [map fst orb].
    + reflexivity.
    + rewrite IH. now destruct (existsb (eqb k) (map fst counts)).
Qed.

(** Inserting never duplicates a label. *)
Lemma incr_NoDup (k : K) (counts : t K) :
  NoDup (map fst counts) -> NoDup (map fst (incr eqb k counts)).
Proof.
  intro H. rewrite keys_incr.
  destruct (existsb (eqb k) (map fst counts)) eqn:E; [exact H|].
  apply NoDup_app; [exact H | repeat constructor; intros [] | ].
  intros x Hx Hk. destruct Hk as [Hk|[]]. subst x.
  assert (Ht : existsb (eqb k) (map fst counts) = true).
  { apply existsb_exists. exists k. split; [exact Hx|].
    destruct (eqb_spec k k); [reflexivity | congruence]. }
  congruence.
Qed.

(** Counting the labels of a list one by one: each label ends up with the
    number of its items, and the labels stay distinct. *)
Lemma get_counted {A : Type} (label : A -> K) (items : list A) (counts : t K) (k : K) :
  get eqb k (fold_left (fun cs x => incr eqb (label x) cs) items counts)
  = (get eqb k counts + Tally.occurrences eqb label k items)%nat.
Proof.
  unfold Tally.occurrences.
  revert counts. induction items as [|x items IH]; intro counts; cbn [fold_left filter].
  - cbn. lia.
  - rewrite IH. destruct (eqb_spec k (label x)) as [->|Hne].
    + rewrite get_incr_same. cbn [length]. lia.
    + rewrite get_incr_other by congruence. lia.
Qed.




End Keyed.

(** The fold of [max] ends on the first entry that no other entry exceeds. *)
Lemma max_item_from {K : Type} (rest : t K) (best : K * nat) :
  let r := fold_left (fun b it => if (snd b <? snd it)%nat then it else b) rest best in
  Forall (fun it => (snd it <= snd r)%nat) rest /\
  (snd best <= snd r)%nat /\
  (r = best \/
   exists pre post,
     rest = pre ++ r :: post /\ (snd best < snd r)%nat
     /\ Forall (fun it => (snd it < snd r)%nat) pre).
Proof.
  revert best. induction rest as [|it rest IH]; intro best; cbn [fold_left].
  - cbv zeta. repeat split; [constructor | lia | now left].
  - cbv zeta.
    destruct (Nat.ltb_spec (snd best) (snd it)) as [Hlt|Hge];
      [specialize (IH it) | specialize (IH best)];
      cbv zeta in IH; destruct IH as (Hall & Hle & Hpos).
    + split; [constructor; assumption|].
      split; [eapply Nat.le_trans; [apply Nat.lt_le_incl, Hlt | exact Hle]|]. right.
      destruct Hpos as [Heq|(pre & post & Hrest & Hlt' & Hpre)].
      * exists [], rest. rewrite Heq. repeat split; [exact Hlt | constructor].
      * exists (it :: pre), post. rewrite Hrest at 1.
        repeat split; [eapply Nat.lt_trans; eassumption | constructor; assumption].
    + split; [constructor; [lia | exact Hall]|]. split; [exact Hle|].
      destruct Hpos as [Heq|(pre & post & Hrest & Hlt' & Hpre)]; [now left|].
      right. exists (it :: pre), post. rewrite Hrest at 1.
      repeat split; [exact Hlt' | constructor; [|exact Hpre]].
      eapply Nat.le_lt_trans; eassumption.
Qed.

(** [max(counts.items(), key=...)] is the first entry with the largest
    count. *)
Lemma max_item_first {K : Type} (counts : t K) (r : K * nat) :
  max_item counts = Some r ->
  exists pre post,
    counts = pre ++ r :: post
    /\ Forall (fun it => (snd it < snd r)%nat) pre
    /\ Forall (fun it => (snd it <= snd r)%nat) post.
Proof.
  destruct counts as [|first rest]; [discriminate|].
  cbn [max_item]. intro H. injection H as Hr.
  pose proof (max_item_from rest first) as Hm. cbv zeta in Hm. rewrite Hr in Hm.
  destruct Hm as (Hall & Hle & [->|(pre & post & -> & Hlt & Hpre)]).
  - exists [], rest. repeat split; [constructor | exact Hall].
  - exists (first :: pre), post. repeat split.
    + constructor; assumption.
    + apply Forall_app in Hall. destruct Hall as [_ Hall].
      now apply Forall_inv_tail in Hall.
Qed.


End CountsMore.

(** ** The frame loop *)

Module VideoLoopFacts.

Import VideoLoop NumFacts.

Lemma initial_consistent : consistent initial.
Proof. constructor; cbn; try reflexivity; try lia; constructor. Qed.

Lemma stress_after_incr (dominant : string) (counts : Counts.t string) :
  (Counts.get String.eqb "angry"%string (Counts.incr String.eqb dominant counts)
   + Counts.get String.eqb "fear"%string (Counts.incr String.eqb dominant counts)
   + Counts.get String.eqb "sad"%string (Counts.incr String.eqb dominant counts))%nat
  = ((if is_stress dominant then 1 else 0)
     + (Counts.get String.eqb "angry"%string counts
        + Counts.get String.eqb "fear"%string counts
        + Counts.get String.eqb "sad"%string counts))%nat.
Proof.
  unfold is_stress, Text.str_in. cbn [existsb].
  destruct (String.eqb_spec dominant "angry"%string) as [->|Ha].
  { rewrite (CountsMore.get_incr_same _ _ String.eqb_spec).
    rewrite !(CountsMore.get_incr_other _ _ String.eqb_spec) by discriminate. cbn. lia. }
  destruct (String.eqb_spec dominant "fear"%string) as [->|Hf].
  { rewrite (CountsMore.get_incr_same _ _ String.eqb_spec).
    rewrite !(CountsMore.get_incr_other _ _ String.eqb_spec) by discriminate. cbn. lia. }
  destruct (String.eqb_spec dominant "sad"%string) as [->|Hs].
  { rewrite (CountsMore.get_incr_same _ _ String.eqb_spec).
    rewrite !(CountsMore.get_incr_other _ _ String.eqb_spec) by discriminate. cbn. lia. }
  rewrite !(CountsMore.get_incr_other _ _ String.eqb_spec) by assumption. cbn. lia.
Qed.

Lemma record_face_consistent (timestamp : Q) (face : Face) (st : LoopState) :
  consistent st -> consistent (record_face timestamp face st).
Proof.
  intros [Ht Hl Hc Hp Hs Hn].
  constructor; cbn [record_face emotion_counts analyzed_frames emotions_timeline
                    emotion_changes previous_emotion stress_expressions].
  - rewrite StepwiseFacts.total_incr. now rewrite Ht.
  - rewrite length_app. cbn [length]. lia.
  - destruct (changed (previous_emotion st) (face_dominant face)) eqn:E; [|lia].
    destruct (analyzed_frames st) as [|n] eqn:En; [|lia].
    rewrite (Hp eq_refl) in E. discriminate E.
  - discriminate.
  - rewrite stress_after_incr, <- Hs.
    destruct (is_stress (face_dominant face)); lia.
  - now apply (CountsMore.incr_NoDup _ _ String.eqb_spec).
Qed.

Lemma next_frame_consistent (st : LoopState) :
  consistent st -> consistent (next_frame st).
Proof. intros [Ht Hl Hc Hp Hs Hn]. constructor; assumption. Qed.

Lemma loop_step_consistent (fps : Q) (st st' : LoopState) (frame : Classified) :
  loop_step fps st frame = Some st' ->
  consistent st -> consistent st' /\ frame_idx st' = S (frame_idx st).
Proof.
  unfold loop_step. intros H Hst.
  destruct (frame_idx st mod 30 =? 0)%nat.
  - destruct (Qeqb fps 0); [discriminate|].
    destruct frame as [|[|face faces]]; injection H as <-;
      (split; [|reflexivity]);
      try (now apply next_frame_consistent).
    now apply next_frame_consistent, record_face_consistent.
  - injection H as <-. split; [now apply next_frame_consistent | reflexivity].
Qed.

Lemma run_loop_consistent (fps : Q) (frames : list Classified) (st st' : LoopState) :
  run_loop fps frames st = Some st' ->
  consistent st ->
  consistent st' /\ frame_idx st' = (frame_idx st + length frames)%nat.
Proof.
  revert st. induction frames as [|frame frames IH]; intros st H Hst; cbn [run_loop] in H.
  - injection H as <-. split; [exact Hst | cbn; lia].
  - destruct (loop_step fps st frame) as [st1|] eqn:E; [|discriminate].
    destruct (loop_step_consistent _ _ _ _ E Hst) as [H1 Hi].
    destruct (IH _ H H1) as [H2 Hi2]. split; [exact H2|].
    rewrite Hi2, Hi. cbn [length]. lia.
Qed.

(** X1.  Whatever the classifier answers, when the frame loop of
    [analyze_video] ends the counts add up to the number of analysed frames,
    which is the length of the timeline; no label occurs twice in the counts;
    [stress_expressions] is the count of angry, fear and sad together; the
    number of emotion changes is below the number of analysed frames; and the
    frame index is the number of frames read. *)
Theorem frame_loop_bookkeeping (fps : Q) (frames : list Classified) (st : LoopState) :
  run_loop fps frames initial = Some st ->
  Counts.total (emotion_counts st) = analyzed_frames st /\
  length (emotions_timeline st) = analyzed_frames st /\
  NoDup (map fst (emotion_counts st)) /\
  stress_expressions st
  = (Counts.get String.eqb "angry"%string (emotion_counts st)
     + Counts.get String.eqb "fear"%string (emotion_counts st)
     + Counts.get String.eqb "sad"%string (emotion_counts st))%nat /\
  (emotion_changes st <= analyzed_frames st - 1)%nat /\
  frame_idx st = length frames.
Proof.
  intro H.
  destruct (run_loop_consistent _ _ _ _ H initial_consistent)
    as [[Ht Hl Hc Hp Hs Hn] Hi].
  repeat split; assumption.
Qed.


Lemma recorded_cons (frame : Classified) (frames : list Classified) (from : nat) :
  recorded (frame :: frames) from
  = (if (from mod 30 =? 0)%nat then
       match frame with
       | Faces (face :: _) => [ (from, face) ]
       | _ => []
       end
     else [])
    ++ recorded frames (S from).
Proof. reflexivity. Qed.

(** With a frame rate other than zero the loop runs to the end and appends one
    sample per recorded frame, counting its label. *)
Lemma run_loop_records (fps : Q) (frames : list Classified) (st : LoopState) :
  ~ fps == 0 ->
  exists st',
    run_loop fps frames st = Some st'
    /\ emotions_timeline st'
       = emotions_timeline st ++ map (sample_of fps) (recorded frames (frame_idx st))
    /\ emotion_counts st'
       = fold_left (fun cs s => Counts.incr String.eqb (s_emotion s) cs)
           (map (sample_of fps) (recorded frames (frame_idx st))) (emotion_counts st).
Proof.
  intro Hfps.
  assert (E0 : Qeqb fps 0 = false).
  { unfold Qeqb. destruct (Qeq_bool fps 0) eqn:E; [|reflexivity].
    apply Qeq_bool_iff in E. contradiction. }
  revert st. induction frames as [|frame frames IH]; intro st.
  - exists st. cbn. now rewrite app_nil_r.
  - cbn [run_loop]. rewrite recorded_cons. unfold loop_step. rewrite E0.
    destruct (frame_idx st mod 30 =? 0)%nat.
    + destruct frame as [|[|face faces]].
      * destruct (IH (next_frame st)) as (st' & Hr & Ht & Hc). exists st'.
        repeat split; assumption.
      * destruct (IH (next_frame st)) as (st' & Hr & Ht & Hc). exists st'.
        repeat split; assumption.
      * destruct (IH (next_frame (record_face (Qnat (frame_idx st) / fps) face st)))
          as (st' & Hr & Ht & Hc).
        exists st'. split; [exact Hr|]. split.
        -- rewrite Ht. cbn [next_frame record_face emotions_timeline frame_idx app map].
           now rewrite <- app_assoc.
        -- rewrite Hc. reflexivity.
    + destruct (IH (next_frame st)) as (st' & Hr & Ht & Hc). exists st'.
      repeat split; assumption.
Qed.

(** X2.  [analyze_video] on a file that cannot be opened returns the error
    result.  On an opened file with a frame rate other than zero it always
    returns a report: only the frames whose index is a multiple of 30 are
    classified, a frame on which the classifier raises or finds no face is
    skipped, and the timeline holds, in order, one sample per remaining frame
    with time [index / fps] and the first face's label; [total_frames] is the
    number of frames read.  With a frame rate of zero and at least one frame
    the division [frame_idx / fps] raises. *)
Theorem video_timeline_is_stride_frames (fps : Q) (frames : list Classified) :
  analyze_video false fps frames = Some (VideoError "Could not open video") /\
  (~ fps == 0 ->
     exists r,
       analyze_video true fps frames = Some (VideoOk r)
       /\ vr_emotions r = map (sample_of fps) (recorded frames 0)
       /\ vr_frames_analyzed r = length (recorded frames 0)
       /\ vr_total_frames r = length frames) /\
  (fps == 0 -> frames <> [] -> analyze_video true fps frames = None).
Proof.
  split; [reflexivity|]. split.
  - intro Hfps.
    destruct (run_loop_records fps frames initial Hfps) as (st & Hr & Ht & _).
    unfold analyze_video. cbn [negb]. rewrite Hr.
    eexists. split; [reflexivity|]. cbn [vr_emotions vr_frames_analyzed vr_total_frames].
    destruct (run_loop_consistent _ _ _ _ Hr initial_consistent) as [[_ Hl _ _ _ _] Hi].
    cbn [initial emotions_timeline frame_idx app] in Ht, Hi.
    split; [exact Ht|]. split; [|exact Hi].
    rewrite <- Hl, Ht. now rewrite length_map.
  - intros Hfps Hne. destruct frames as [|frame frames]; [congruence|].
    unfold analyze_video. cbn [negb run_loop]. unfold loop_step.
    cbn [initial frame_idx Nat.modulo Nat.eqb].
    change (0 mod 30 =? 0)%nat with true. cbv iota.
    unfold Qeqb. apply Qeq_bool_iff in Hfps. now rewrite Hfps.
Qed.

Lemma video_timeline_is_stride_frames_witness :
  (~ 30 == 0 /\
   exists r,
     analyze_video true 30 Cases.clip = Some (VideoOk r)
     /\ map s_emotion (vr_emotions r) = [ "happy"; "sad" ]%string
     /\ vr_frames_analyzed r = 2%nat
     /\ vr_total_frames r = 61%nat) /\
  (0 == 0 /\ Cases.clip <> [] /\ analyze_video true 0 Cases.clip = None).
Proof.
  split.
  - assert (H : ~ 30 == 0) by (intro E; discriminate E).
    split; [exact H|].
    destruct (proj1 (proj2 (video_timeline_is_stride_frames 30 Cases.clip)) H)
      as (r & Hr & He & Hn & Ht).
    exists r. split; [exact Hr|]. split; [now rewrite He|].
    split; [now rewrite Hn | now rewrite Ht].
  - assert (H0 : 0 == 0) by reflexivity.
    assert (Hne : Cases.clip <> []) by discriminate.
    split; [exact H0|]. split; [exact Hne|].
    exact (proj2 (proj2 (video_timeline_is_stride_frames 0 Cases.clip)) H0 Hne).
Defined.

Lemma frame_loop_bookkeeping_witness :
  exists st,
    run_loop 30 Cases.clip initial = Some st
    /\ Counts.total (emotion_counts st) = analyzed_frames st
    /\ length (emotions_timeline st) = analyzed_frames st
    /\ frame_idx st = 61%nat.
Proof.
  destruct (run_loop 30 Cases.clip initial) as [st|] eqn:E; [|discriminate E].
  exists st. split; [reflexivity|].
  destruct (frame_loop_bookkeeping 30 Cases.clip st E) as (Ht & Hl & _ & _ & _ & Hi).
  repeat split; assumption.
Defined.

(** X3.  In the report of [analyze_video] the summary count of a label is the
    number of timeline samples carrying that label, no label is listed twice,
    and the counts add up to [frames_analyzed]. *)
Theorem video_summary_counts_timeline (fps : Q) (frames : list Classified)
    (r : VideoReport) :
  analyze_video true fps frames = Some (VideoOk r) ->
  (forall label,
     Counts.get String.eqb label (vr_emotion_summary r)
     = Tally.occurrences String.eqb s_emotion label (vr_emotions r)) /\
  NoDup (map fst (vr_emotion_summary r)) /\
  Counts.total (vr_emotion_summary r) = vr_frames_analyzed r.
Proof.
  unfold analyze_video. cbn [negb].
  destruct (run_loop fps frames initial) as [st|] eqn:Hr; [|discriminate].
  intro H. injection H as <-. cbn [vr_emotion_summary vr_emotions vr_frames_analyzed].
  destruct (run_loop_consistent _ _ _ _ Hr initial_consistent) as [[Ht _ _ _ _ Hn] _].
  split; [|split; assumption].
  intro label.
  destruct frames as [|frame frames].
  - cbn in Hr. injection Hr as <-. reflexivity.
  - destruct (Qeq_bool fps 0) eqn:E0.
    + exfalso. cbn [run_loop] in Hr. unfold loop_step in Hr.
      change (frame_idx initial mod 30 =? 0)%nat with true in Hr. cbv iota in Hr.
      unfold Qeqb in Hr. rewrite E0 in Hr. discriminate Hr.
    + assert (Hfps : ~ fps == 0) by (now apply Qeq_bool_neq).
      destruct (run_loop_records fps (frame :: frames) initial Hfps)
        as (st' & Hr' & Htl & Hc).
      rewrite Hr in Hr'. injection Hr' as <-.
      rewrite Hc, Htl. cbn [initial emotion_counts emotions_timeline frame_idx app].
      rewrite (CountsMore.get_counted _ _ String.eqb_spec). reflexivity.
Qed.

Lemma video_summary_counts_timeline_witness :
  exists r,
    analyze_video true 30 Cases.clip = Some (VideoOk r)
    /\ Counts.get String.eqb "sad"%string (vr_emotion_summary r)
       = Tally.occurrences String.eqb s_emotion "sad"%string (vr_emotions r)
    /\ Counts.total (vr_emotion_summary r) = vr_frames_analyzed r.
Proof.
  destruct (analyze_video true 30 Cases.clip) as [[msg|r]|] eqn:E;
    [discriminate E | | discriminate E].
  exists r. split; [reflexivity|].
  destruct (video_summary_counts_timeline 30 Cases.clip r E) as (Hg & _ & Ht).
  split; [apply Hg | exact Ht].
Defined.

End VideoLoopFacts.

(** ** Dominant emotion and placeholders *)

Module DominantFacts.

Import Video NumFacts.

(** X4.  The dominant emotion, of a whole video as of a step window, is the
    first label in the counts that no other label exceeds: every label before
    it has strictly fewer samples, every label after it no more.  With no
    sample at all it is ["neutral"]. *)
Theorem dominant_is_first_maximum :
  (forall (emotion_counts : emotion_counts_t)
          (emotion_changes stress_expressions analyzed_frames : nat) (duration : Q),
     let m := calculate_video_metrics emotion_counts emotion_changes
                stress_expressions analyzed_frames duration in
     (emotion_counts = [] -> dominant_emotion m = "neutral"%string) /\
     (emotion_counts <> [] ->
        exists c pre post,
          emotion_counts = pre ++ (dominant_emotion m, c) :: post
          /\ Forall (fun it => (snd it < c)%nat) pre
          /\ Forall (fun it => (snd it <= c)%nat) post)) /\
  (forall (video_data : Stepwise.video_data_t) (a b : Q),
     let m := Stepwise.extract_metrics_for_timerange video_data a b in
     (0 < Stepwise.rm_sample_count m)%nat ->
     exists c pre post,
       Stepwise.count_emotions (Stepwise.filter_emotions video_data a b)
       = pre ++ (Stepwise.rm_dominant_emotion m, c) :: post
       /\ Forall (fun it => (snd it < c)%nat) pre
       /\ Forall (fun it => (snd it <= c)%nat) post).
Proof.
  split.
  - intros counts changes stress frames duration. cbv zeta.
    unfold calculate_video_metrics. cbn [dominant_emotion].
    split; [intros ->; reflexivity|].
    intro Hne.
    destruct (Counts.max_item counts) as [[e c]|] eqn:E.
    + destruct (CountsMore.max_item_first counts (e, c) E) as (pre & post & H1 & H2 & H3).
      exists c, pre, post. repeat split; assumption.
    + destruct counts; [congruence | discriminate E].
  - intros video_data a b. cbv zeta.
    unfold Stepwise.extract_metrics_for_timerange.
    cbn [Stepwise.rm_sample_count Stepwise.rm_dominant_emotion].
    intro Hpos.
    destruct (Counts.max_item (Stepwise.count_emotions
                                 (Stepwise.filter_emotions video_data a b)))
      as [[e c]|] eqn:E.
    + destruct (CountsMore.max_item_first _ (e, c) E) as (pre & post & H1 & H2 & H3).
      exists c, pre, post. repeat split; assumption.
    + exfalso.
      pose proof (StepwiseFacts.total_count_emotions
                    (Stepwise.filter_emotions video_data a b)) as Ht.
      destruct (Stepwise.count_emotions (Stepwise.filter_emotions video_data a b));
        [|discriminate E].
      cbn in Ht. lia.
Qed.

Lemma dominant_is_first_maximum_witness :
  Cases.tied_counts <> [] /\
  dominant_emotion (calculate_video_metrics Cases.tied_counts 3 6 13 60) = "happy"%string /\
  exists c pre post,
    Cases.tied_counts
    = pre ++ (dominant_emotion (calculate_video_metrics Cases.tied_counts 3 6 13 60), c)
             :: post
    /\ Forall (fun it => (snd it < c)%nat) pre
    /\ Forall (fun it => (snd it <= c)%nat) post.
Proof.
  assert (Hne : Cases.tied_counts <> []) by discriminate.
  split; [exact Hne|]. split; [reflexivity|].
  exact (proj2 (proj1 dominant_is_first_maximum Cases.tied_counts 3%nat 6%nat 13%nat 60)
           Hne).
Defined.

(** X5.  [eye_contact_consistency] measures nothing: it is 85 whenever at
    least one frame was analysed and 0 otherwise, whatever the counts, the
    changes and the duration are. *)
Theorem eye_contact_is_constant
    (emotion_counts : emotion_counts_t)
    (emotion_changes stress_expressions analyzed_frames : nat) (duration : Q) :
  eye_contact_consistency
    (calculate_video_metrics emotion_counts emotion_changes stress_expressions
       analyzed_frames duration)
  == (if (analyzed_frames =? 0)%nat then 0 else 85).
Proof.
  unfold calculate_video_metrics. cbn [eye_contact_consistency].
  destruct analyzed_frames as [|n].
  - reflexivity.
  - cbn [Nat.eqb].
    replace (Nat.max 1 (S n)) with (S n) by lia.
    rewrite (round2_wd (Qnat (S n) / Qnat (S n) * 85) 85); [reflexivity|].
    pose proof (Qnat_pos (S n)) as Hp.
    field. intro E. rewrite E in Hp. specialize (Hp ltac:(lia)). lra.
Qed.

End DominantFacts.

(** ** More on rounding *)

Module NumMore.

Import NumFacts.

Lemma round_half_even_mono (x y : Q) :
  x <= y -> (round_half_even x <= round_half_even y)%Z.
Proof.
  intro Hxy.
  pose proof (Qfloor_resp_le _ _ Hxy) as Hf.
  pose proof (round_half_even_floor x) as Hx.
  pose proof (round_half_even_floor y) as Hy.
  destruct (Z.eq_dec (Qfloor x) (Qfloor y)) as [E|Hne]; [|lia].
  unfold round_half_even. rewrite <- E.
  destruct (Qltb (x - inject_Z (Qfloor x)) (1#2)) eqn:X1.
  { destruct (Qltb (y - inject_Z (Qfloor x)) (1#2)); [lia|].
    destruct (Qltb (1#2) (y - inject_Z (Qfloor x))); [lia|].
    destruct (Z.even (Qfloor x)); lia. }
  apply Qltb_ge in X1.
  assert (Y1 : Qltb (y - inject_Z (Qfloor x)) (1#2) = false).
  { apply Qltb_ge. lra. }
  rewrite Y1.
  destruct (Qltb (1#2) (x - inject_Z (Qfloor x))) eqn:X2.
  { apply Qltb_lt in X2.
    assert (Y2 : Qltb (1#2) (y - inject_Z (Qfloor x)) = true).
    { apply Qltb_lt. lra. }
    rewrite Y2. lia. }
  destruct (Qltb (1#2) (y - inject_Z (Qfloor x))); [destruct (Z.even (Qfloor x)); lia|].
  lia.
Qed.

(** [round(x, 2)] keeps the order. *)
Lemma round2_mono (x y : Q) : x <= y -> round2 x <= round2 y.
Proof.
  intro H. unfold round2.
  assert (Hk : (round_half_even (x * 100) <= round_half_even (y * 100))%Z).
  { apply round_half_even_mono. lra. }
  rewrite Zle_Qle in Hk.
  unfold Qdiv. apply Qmult_le_compat_r; [exact Hk | discriminate].
Qed.

Lemma round2_half : round2 (1#2) == 1#2.
Proof. reflexivity. Qed.

Lemma py_min_mono (a x y : Q) : x <= y -> py_min a x <= py_min a y.
Proof.
  intro H. apply py_min_glb.
  - apply py_min_spec.
  - destruct (py_min_spec a x) as [_ Hx]. lra.
Qed.

Lemma py_max_mono (a x y : Q) : x <= y -> py_max a x <= py_max a y.
Proof.
  intro H. apply py_max_lub.
  - apply py_max_spec.
  - destruct (py_max_spec a y) as [_ Hy]. lra.
Qed.

Lemma Qsum_from (l : list Q) (acc : Q) : fold_left Qplus l acc == acc + Qsum l.
Proof.
  unfold Qsum. revert acc. induction l as [|x l IH]; intro acc; cbn [fold_left].
  - lra.
  - rewrite IH, (IH (0 + x)). lra.
Qed.

Lemma Qsum_cons (x : Q) (l : list Q) : Qsum (x :: l) == x + Qsum l.
Proof. unfold Qsum at 1. cbn [fold_left]. rewrite Qsum_from. lra. Qed.

(** The sum of [n] numbers that are each at least [b] is at least [n * b]. *)
Lemma Qsum_lower (b : Q) (l : list Q) :
  Forall (fun x => b <= x) l -> Qnat (length l) * b <= Qsum l.
Proof.
  induction 1 as [|x l Hx _ IH].
  - change (Qnat (length (@nil Q))) with 0. change (Qsum []) with 0. lra.
  - rewrite Qsum_cons. cbn [length].
    assert (HS : Qnat (S (length l)) == Qnat (length l) + 1).
    { unfold Qnat. rewrite Nat2Z.inj_succ, <- Z.add_1_r, inject_Z_plus. reflexivity. }
    rewrite HS. lra.
Qed.

Lemma Qsum_upper (b : Q) (l : list Q) :
  Forall (fun x => x <= b) l -> Qsum l <= Qnat (length l) * b.
Proof.
  induction 1 as [|x l Hx _ IH].
  - change (Qnat (length (@nil Q))) with 0. change (Qsum []) with 0. lra.
  - rewrite Qsum_cons. cbn [length].
    assert (HS : Qnat (S (length l)) == Qnat (length l) + 1).
    { unfold Qnat. rewrite Nat2Z.inj_succ, <- Z.add_1_r, inject_Z_plus. reflexivity. }
    rewrite HS. lra.
Qed.

End NumMore.

(** ** Speech analyser: bounds, order and the shared model *)

Module AudioMore.

Import Audio NumFacts NumMore.

(** X6.  With a standard deviation that is never negative, the voice stress
    indicator lies in [[0, 100]] for every pitch and energy track, and it is
    the neutral 50 when either track is empty. *)
Theorem stress_score_bounded (np_std : list Q -> Q) (pitch_values rms_values : list Q) :
  (forall l, 0 <= np_std l) ->
  0 <= calculate_stress_score np_std pitch_values rms_values <= 100 /\
  (pitch_values = [] \/ rms_values = [] ->
   calculate_stress_score np_std pitch_values rms_values = 50).
Proof.
  intro Hstd. split.
  - unfold calculate_stress_score.
    destruct pitch_values as [|p ps]; [lra|].
    destruct rms_values as [|r rs]; [lra|].
    apply round2_range.
    set (pitch := p :: ps). set (rms := r :: rs).
    assert (Hp : 0 <= py_min 100 (np_std pitch / 50 * 100) <= 100).
    { split; [|apply py_min_spec]. apply py_min_glb; [lra|].
      assert (E : np_std pitch / 50 * 100 == np_std pitch * 2) by field.
      rewrite E. specialize (Hstd pitch). lra. }
    assert (He : 0 <= (if Qltb 0 (np_mean rms)
                       then py_min 100 (np_std rms / np_mean rms * 100) else 0) <= 100).
    { destruct (Qltb 0 (np_mean rms)) eqn:E; [|lra].
      apply Qltb_lt in E. split; [|apply py_min_spec].
      apply py_min_glb; [lra|].
      assert (0 <= np_std rms / np_mean rms).
      { apply Qle_shift_div_l; [exact E|]. specialize (Hstd rms). lra. }
      lra. }
    lra.
  - intros [->| ->]; [reflexivity|]. now destruct pitch_values.
Qed.

Lemma stress_score_bounded_witness :
  (forall l, 0 <= Cases.std_one l) /\
  0 <= calculate_stress_score Cases.std_one [100; 110] [1#10; 2#10] <= 100.
Proof.
  assert (H : forall l, 0 <= Cases.std_one l) by (intro l; unfold Cases.std_one; lra).
  split; [exact H|].
  exact (proj1 (stress_score_bounded Cases.std_one [100; 110] [1#10; 2#10] H)).
Defined.

(** X7.  The fluency score never rises when fillers, long pauses or pauses
    are added, the word count staying the same; with words but no filler and
    no pause it is 100. *)
Theorem fluency_never_rises_with_penalties
    (filler_count filler_count' word_count long_pauses long_pauses'
     pause_frequency pause_frequency' : nat) :
  (filler_count <= filler_count')%nat ->
  (long_pauses <= long_pauses')%nat ->
  (pause_frequency <= pause_frequency')%nat ->
  calculate_fluency_score filler_count' word_count long_pauses' pause_frequency'
  <= calculate_fluency_score filler_count word_count long_pauses pause_frequency
  /\ ((0 < word_count)%nat -> calculate_fluency_score 0 word_count 0 0 == 100).
Proof.
  intros Hf Hl Hp. unfold calculate_fluency_score.
  destruct (Nat.eqb_spec word_count 0) as [E|Hne]; [split; [lra | lia]|].
  assert (Hw : 0 < Qnat word_count) by (apply Qnat_pos; lia).
  split.
  - apply round2_mono, py_max_mono, py_min_mono.
    assert (Ha : Qnat filler_count / Qnat word_count * 100
                 <= Qnat filler_count' / Qnat word_count * 100).
    { assert (Qnat filler_count / Qnat word_count <= Qnat filler_count' / Qnat word_count).
      { unfold Qdiv. apply Qmult_le_compat_r; [now apply Qnat_le|].
        apply Qlt_le_weak, Qinv_lt_0_compat, Hw. }
      lra. }
    assert (Hb : Qnat (long_pauses * 5) <= Qnat (long_pauses' * 5))
      by (apply Qnat_le; lia).
    assert (Hc : py_min 30 (Qnat (pause_frequency * 2))
                 <= py_min 30 (Qnat (pause_frequency' * 2)))
      by (apply py_min_mono, Qnat_le; lia).
    lra.
  - intros _.
    rewrite (round2_wd _ 100); [reflexivity|].
    assert (E0 : Qnat 0 / Qnat word_count * 100 == 0).
    { unfold Qdiv. change (Qnat 0) with 0. ring. }
    change (Qnat (0 * 5)) with 0. change (Qnat (0 * 2)) with 0.
    change (py_min 30 0) with 0.
    rewrite py_max_Qmax, py_min_Qmin.
    rewrite (Q.min_compat 100 100 (Qeq_refl _)
               (100 - Qnat 0 / Qnat word_count * 100 - 0 - 0) 100) by (rewrite E0; ring).
    reflexivity.
Qed.

Lemma fluency_never_rises_with_penalties_witness :
  (1 <= 4)%nat /\ (0 <= 2)%nat /\ (3 <= 3)%nat /\
  calculate_fluency_score 4 20 2 3 <= calculate_fluency_score 1 20 0 3 /\
  calculate_fluency_score 0 20 0 0 == 100.
Proof.
  assert (H1 : (1 <= 4)%nat) by lia.
  assert (H2 : (0 <= 2)%nat) by lia.
  assert (H3 : (3 <= 3)%nat) by lia.
  assert (H4 : (0 < 20)%nat) by lia.
  split; [exact H1|]. split; [exact H2|]. split; [exact H3|]. split.
  - exact (proj1 (fluency_never_rises_with_penalties 1 4 20 0 2 3 3 H1 H2 H3)).
  - exact (proj2 (fluency_never_rises_with_penalties 1 4 20 0 2 3 3 H1 H2 H3) H4).
Defined.

Lemma pauses_of (segments : list Segment) :
  pause_loop segments
  = (filter (fun g => Qltb (1#2) g) (gaps segments), count_gt 2 (gaps segments)).
Proof.
  rewrite AudioFacts.pause_loop_gaps, AudioFacts.pause_fold. reflexivity.
Qed.

(** X8.  There are never more pauses than gaps between segments, and the
    average pause duration is 0 exactly when there is no pause and at least
    0.5 otherwise. *)
Theorem pause_count_and_average_bounds (segments : list Segment) :
  let r := calculate_pause_metrics segments in
  (pause_frequency r <= length segments - 1)%nat /\
  (pause_frequency r = 0%nat <-> average_pause_duration r == 0) /\
  ((0 < pause_frequency r)%nat -> 1#2 <= average_pause_duration r).
Proof.
  cbv zeta. unfold calculate_pause_metrics. rewrite pauses_of.
  cbn [pause_frequency average_pause_duration].
  set (pauses := filter (fun g => Qltb (1#2) g) (gaps segments)).
  assert (Hlen : (length pauses <= length segments - 1)%nat).
  { unfold pauses. rewrite <- (AdjacentFacts.adj_map_length _ _
                                 (fun a b => seg_start b - seg_end a) segments).
    exact (filter_length_le _ (gaps segments)). }
  assert (Hall : Forall (fun g => 1#2 <= g) pauses).
  { apply Forall_forall. intros g Hg. apply filter_In in Hg.
    destruct Hg as [_ Hg]. apply Qltb_lt in Hg. lra. }
  assert (Havg : pauses <> [] -> 1#2 <= round2 (np_mean pauses)).
  { intro Hne. rewrite <- round2_half. apply round2_mono.
    pose proof (Qsum_lower (1#2) pauses Hall) as Hs.
    assert (Hp : 0 < Qnat (length pauses)).
    { apply Qnat_pos. destruct pauses; [congruence | cbn; lia]. }
    unfold np_mean. fold (Qnat (length pauses)).
    apply Qle_shift_div_l; [exact Hp | lra]. }
  split; [exact Hlen|]. split.
  - destruct pauses as [|g gs] eqn:E.
    + split; reflexivity.
    + split; [discriminate|]. intro H0.
      assert (Hne : g :: gs <> []) by discriminate.
      specialize (Havg Hne). lra.
  - destruct pauses as [|g gs] eqn:E; [cbn; lia|].
    intros _. apply Havg. discriminate.
Qed.

Lemma pause_count_and_average_bounds_witness :
  (0 < pause_frequency (calculate_pause_metrics Samples.one_long_gap))%nat /\
  1#2 <= average_pause_duration (calculate_pause_metrics Samples.one_long_gap).
Proof.
  assert (H : (0 < pause_frequency (calculate_pause_metrics Samples.one_long_gap))%nat).
  { vm_compute. lia. }
  split; [exact H|].
  exact (proj2 (proj2 (pause_count_and_average_bounds Samples.one_long_gap)) H).
Defined.


Lemma speaking_time_from (segments : list Segment) (acc : Q) :
  fold_left (fun a seg => a + (seg_end seg - seg_start seg)) segments acc
  == acc + speaking_time segments.
Proof. exact (DensityFacts.speech_time_from segments acc). Qed.

Lemma speaking_time_nonneg (segments : list Segment) :
  Forall (fun seg => seg_start seg <= seg_end seg) segments ->
  0 <= speaking_time segments.
Proof.
  induction 1 as [|seg segments Hseg _ IH].
  - unfold speaking_time. cbn. lra.
  - unfold speaking_time. cbn [fold_left]. rewrite speaking_time_from. lra.
Qed.

Lemma speaking_time_instant (segments : list Segment) :
  Forall (fun seg => seg_start seg == seg_end seg) segments ->
  speaking_time segments == 0.
Proof.
  induction 1 as [|seg segments Hseg _ IH].
  - reflexivity.
  - unfold speaking_time. cbn [fold_left]. rewrite speaking_time_from, IH, Hseg. ring.
Qed.

(** X9.  When no segment ends before it starts the speech rate is never
    negative; and when every segment is instantaneous, so that no time was
    spent speaking, it is 0 rather than a division by zero. *)
Theorem speech_rate_never_negative (segments : list Segment) (word_count : nat) :
  (Forall (fun seg => seg_start seg <= seg_end seg) segments ->
   0 <= calculate_speech_rate segments word_count) /\
  (Forall (fun seg => seg_start seg == seg_end seg) segments ->
   calculate_speech_rate segments word_count = 0).
Proof.
  unfold calculate_speech_rate. split; intro H.
  - destruct segments as [|seg rest]; [lra|].
    destruct (word_count =? 0)%nat; [lra|].
    pose proof (speaking_time_nonneg _ H) as Ht.
    unfold Qeqb. destruct (Qeq_bool (speaking_time (seg :: rest)) 0) eqn:E; [lra|].
    apply Qeq_bool_neq in E. apply round2_ge_0.
    assert (Hp : 0 < speaking_time (seg :: rest)).
    { destruct (Qlt_le_dec 0 (speaking_time (seg :: rest))) as [Hlt|Hle]; [exact Hlt|].
      exfalso. apply E. lra. }
    assert (0 <= Qnat word_count / speaking_time (seg :: rest)).
    { apply Qle_shift_div_l; [exact Hp|]. pose proof (Qnat_nonneg word_count). lra. }
    lra.
  - destruct segments as [|seg rest]; [reflexivity|].
    destruct (word_count =? 0)%nat; [reflexivity|].
    pose proof (speaking_time_instant _ H) as Ht.
    unfold Qeqb. apply Qeq_bool_iff in Ht. now rewrite Ht.
Qed.

Lemma speech_rate_never_negative_witness :
  Forall (fun seg => seg_start seg <= seg_end seg) Samples.one_long_gap /\
  0 <= calculate_speech_rate Samples.one_long_gap 6 /\
  Forall (fun seg => seg_start seg == seg_end seg) [ mkSegment 3 3 None ] /\
  calculate_speech_rate [ mkSegment 3 3 None ] 6 = 0.
Proof.
  assert (H : Forall (fun seg => seg_start seg <= seg_end seg) Samples.one_long_gap).
  { repeat constructor; cbn; lra. }
  assert (H' : Forall (fun seg => seg_start seg == seg_end seg) [ mkSegment 3 3 None ]).
  { repeat constructor. }
  split; [exact H|]. split.
  - exact (proj1 (speech_rate_never_negative Samples.one_long_gap 6) H).
  - split; [exact H'|].
    exact (proj2 (speech_rate_never_negative [ mkSegment 3 3 None ] 6) H').
Defined.

(** X10.  A level that does not vary ([np.std] of the energy is 0) gives a
    volume stability of 100, also for digital silence, where the mean is 0 as
    well and numpy's division yields not-a-number; an empty energy track
    gives 0. *)
Theorem steady_volume_is_100 (np_std : list Q -> Q) (rms : list Q) :
  (rms <> [] -> np_std rms == 0 -> volume_stability np_std rms = Fin 100) /\
  volume_stability np_std [] = Fin 0.
Proof.
  split; [|reflexivity].
  intros Hne Hstd. unfold volume_stability, volume_stability_raw.
  destruct rms as [|r rs]; [congruence|].
  unfold np_div, Qeqb.
  assert (Es : Qeq_bool (np_std (r :: rs)) 0 = true) by (now apply Qeq_bool_iff).
  destruct (Qeq_bool (np_mean (r :: rs)) 0) eqn:Em.
  - rewrite Es. reflexivity.
  - cbn [hundred_minus_pct np_round2].
    rewrite (round2_wd (100 - np_std (r :: rs) / np_mean (r :: rs) * 100) 100).
    + reflexivity.
    + rewrite Hstd. unfold Qdiv. ring.
Qed.

Lemma steady_volume_is_100_witness :
  [0; 0; 0] <> [] /\ Samples.std0 [0; 0; 0] == 0 /\
  volume_stability Samples.std0 [0; 0; 0] = Fin 100.
Proof.
  assert (Hne : [0; 0; 0] <> (@nil Q)) by discriminate.
  assert (H0 : Samples.std0 [0; 0; 0] == 0) by reflexivity.
  split; [exact Hne|]. split; [exact H0|].
  exact (proj1 (steady_volume_is_100 Samples.std0 [0; 0; 0]) Hne H0).
Defined.

(** *** The model is loaded once *)

Lemma analyze_audio_trace (np_std : list Q -> Q) (w : World) (path : string)
    (rt : Runtime) :
  snd (analyze_audio np_std w path rt)
  = if path_exists w path
    then {| model_loaded := true;
            asr_trace := asr_trace rt
                         ++ (if model_loaded rt then [] else [LoadModel])
                         ++ [Transcribe path] |}
    else rt.
Proof.
  unfold analyze_audio, transcribe, load_model.
  destruct (path_exists w path); cbn [negb]; [|reflexivity].
  destruct (model_loaded rt) eqn:E; cbn [snd model_loaded asr_trace app].
  - now rewrite E.
  - now rewrite <- app_assoc.
Qed.

Lemma analyze_all_trace (np_std : list Q -> Q) (w : World) (paths : list string)
    (rt : Runtime) :
  snd (Batch.analyze_all np_std w paths rt)
  = match filter (path_exists w) paths with
    | [] => rt
    | found =>
        {| model_loaded := true;
           asr_trace := asr_trace rt
                        ++ (if model_loaded rt then [] else [LoadModel])
                        ++ map Transcribe found |}
    end
  /\ length (fst (Batch.analyze_all np_std w paths rt)) = length paths.
Proof.
  revert rt. induction paths as [|path paths IH]; intro rt.
  - split; reflexivity.
  - cbn [Batch.analyze_all filter].
    pose proof (analyze_audio_trace np_std w path rt) as Hone.
    destruct (analyze_audio np_std w path rt) as [r rt1]. cbn [snd] in Hone.
    destruct (IH rt1) as [Hrest Hlen].
    destruct (Batch.analyze_all np_std w paths rt1) as [rs rt2].
    cbn [snd fst length] in *. split; [|now rewrite Hlen].
    rewrite Hrest, Hone.
    destruct (path_exists w path).
    + cbn [model_loaded asr_trace app].
      destruct (filter (path_exists w) paths) as [|p ps].
      * destruct (model_loaded rt); cbn [map app]; reflexivity.
      * f_equal. rewrite <- !app_assoc. cbn [map app]. reflexivity.
    + reflexivity.
Qed.

(** X11.  In a fresh process, analysing any list of paths one after the
    other loads the model at most once, just before the first transcription,
    and transcribes exactly the paths that exist, in order; if none exists
    nothing is loaded.  Every path gets a result. *)
Theorem model_loaded_once (np_std : list Q -> Q) (w : World) (paths : list string) :
  let '(results, rt) := Batch.analyze_all np_std w paths Samples.rt0 in
  length results = length paths /\
  asr_trace rt
  = match filter (path_exists w) paths with
    | [] => []
    | found => LoadModel :: map Transcribe found
    end /\
  (length (filter Batch.is_load (asr_trace rt)) <= 1)%nat /\
  Batch.transcribed (asr_trace rt) = filter (path_exists w) paths.
Proof.
  destruct (analyze_all_trace np_std w paths Samples.rt0) as [Ht Hl].
  destruct (Batch.analyze_all np_std w paths Samples.rt0) as [results rt].
  cbn [fst snd] in *. split; [exact Hl|].
  assert (Htr : forall l, Batch.transcribed (map Transcribe l) = l).
  { unfold Batch.transcribed.
    induction l as [|p l IHl]; [reflexivity|]. cbn [map flat_map app]. now rewrite IHl. }
  assert (Hld : forall l, filter Batch.is_load (map Transcribe l) = []).
  { induction l as [|p l IHl]; [reflexivity|]. cbn [map filter Batch.is_load]. exact IHl. }
  rewrite Ht. destruct (filter (path_exists w) paths) as [|p ps].
  - cbn. repeat split. lia.
  - cbn [Samples.rt0 model_loaded asr_trace app].
    split; [reflexivity|]. split.
    + cbn [filter Batch.is_load]. rewrite Hld. cbn. lia.
    + change (Batch.transcribed (LoadModel :: map Transcribe (p :: ps)))
        with (Batch.transcribed (map Transcribe (p :: ps))).
      apply Htr.
Qed.

End AudioMore.

(** ** Tokens: blank text and the way back from tokens *)

Module TextMore.

Import Text.












End TextMore.

(** ** Semantic analyser: confidence, fallback invariants, result shape *)

Module TranscriptMore.

Import Py Text Transcript NumFacts NumMore.

(** X13.  When every [no_speech_prob] that is present lies in [[0, 1]], the
    transcript confidence lies in [[0, 100]]; it is 0 for no segment at all
    and 50 when no segment carries the field. *)
Theorem transcript_confidence_bounded (segments : list Segment) :
  (Forall Lookup.prob_ok segments ->
   0 <= calculate_transcript_confidence segments <= 100) /\
  (segments = [] -> calculate_transcript_confidence segments = 0) /\
  (segments <> [] -> Forall (fun seg => seg_no_speech_prob seg = None) segments ->
   calculate_transcript_confidence segments == 50).
Proof.
  unfold calculate_transcript_confidence.
  set (score := fun seg : Segment =>
                  (1 - match seg_no_speech_prob seg with Some p => p | None => 1#2 end)
                  * 100).
  split; [|split].
  - intro H. destruct segments as [|seg rest]; [lra|].
    set (segs := seg :: rest) in *.
    apply round2_range.
    assert (Hlo : Forall (fun x => 0 <= x) (map score segs)).
    { apply Forall_forall. intros x Hx. apply in_map_iff in Hx.
      destruct Hx as (sg & <- & Hin).
      pose proof (proj1 (Forall_forall _ _) H sg Hin) as Hp.
      unfold Lookup.prob_ok in Hp. unfold score.
      destruct (seg_no_speech_prob sg); lra. }
    assert (Hhi : Forall (fun x => x <= 100) (map score segs)).
    { apply Forall_forall. intros x Hx. apply in_map_iff in Hx.
      destruct Hx as (sg & <- & Hin).
      pose proof (proj1 (Forall_forall _ _) H sg Hin) as Hp.
      unfold Lookup.prob_ok in Hp. unfold score.
      destruct (seg_no_speech_prob sg); lra. }
    pose proof (Qsum_lower 0 _ Hlo) as H1.
    pose proof (Qsum_upper 100 _ Hhi) as H2.
    assert (Hn : 0 < Qnat (length (map score segs))).
    { apply Qnat_pos. unfold segs. cbn. lia. }
    split.
    + apply Qle_shift_div_l; [exact Hn | lra].
    + apply Qle_shift_div_r; [exact Hn | lra].
  - intros ->. reflexivity.
  - intros Hne H. destruct segments as [|seg rest]; [congruence|].
    set (segs := seg :: rest) in *.
    rewrite (round2_wd _ 50); [reflexivity|].
    assert (Hlo : Forall (fun x => 50 <= x) (map score segs)).
    { apply Forall_forall. intros x Hx. apply in_map_iff in Hx.
      destruct Hx as (sg & <- & Hin).
      pose proof (proj1 (Forall_forall _ _) H sg Hin) as Hp.
      unfold score. cbv beta in Hp. rewrite Hp. lra. }
    assert (Hhi : Forall (fun x => x <= 50) (map score segs)).
    { apply Forall_forall. intros x Hx. apply in_map_iff in Hx.
      destruct Hx as (sg & <- & Hin).
      pose proof (proj1 (Forall_forall _ _) H sg Hin) as Hp.
      unfold score. cbv beta in Hp. rewrite Hp. lra. }
    pose proof (Qsum_lower 50 _ Hlo) as H1.
    pose proof (Qsum_upper 50 _ Hhi) as H2.
    assert (Hn : 0 < Qnat (length (map score segs))).
    { apply Qnat_pos. unfold segs. cbn. lia. }
    apply Qle_antisym.
    + apply Qle_shift_div_r; [exact Hn | lra].
    + apply Qle_shift_div_l; [exact Hn | lra].
Qed.

Lemma transcript_confidence_bounded_witness :
  Forall Lookup.prob_ok Cases.mixed_segments /\
  0 <= calculate_transcript_confidence Cases.mixed_segments <= 100 /\
  [ mkSegment 0 1 None ] <> [] /\
  Forall (fun seg => seg_no_speech_prob seg = None) [ mkSegment 0 1 None ] /\
  calculate_transcript_confidence [ mkSegment 0 1 None ] == 50.
Proof.
  assert (H : Forall Lookup.prob_ok Cases.mixed_segments).
  { repeat constructor; unfold Lookup.prob_ok; cbn; lra. }
  assert (Hne : [ mkSegment 0 1 None ] <> (@nil Segment)) by discriminate.
  assert (Hn : Forall (fun seg => seg_no_speech_prob seg = None) [ mkSegment 0 1 None ]).
  { repeat constructor. }
  split; [exact H|]. split.
  - exact (proj1 (transcript_confidence_bounded Cases.mixed_segments) H).
  - split; [exact Hne|]. split; [exact Hn|].
    exact (proj2 (proj2 (transcript_confidence_bounded [ mkSegment 0 1 None ])) Hne Hn).
Defined.


(** *** Fields of the fallback that go together *)

Lemma disjoint_excludes (a b : list string) (w : string) :
  Lookup.disjoint a b = true -> str_in w a = true -> str_in w b = false.
Proof.
  unfold Lookup.disjoint. intros Hd Hw.
  apply TextFacts.str_in_In in Hw.
  pose proof (proj1 (forallb_forall _ _) Hd w Hw) as H.
  now apply negb_true_iff in H.
Qed.

Lemma one_category (w : string) :
  (Lookup.b2n (str_in w fear_keywords) + Lookup.b2n (str_in w stress_keywords)
   + Lookup.b2n (str_in w confidence_keywords) + Lookup.b2n (str_in w calm_keywords) <= 1)%nat.
Proof.
  destruct (str_in w fear_keywords) eqn:F.
  { rewrite (disjoint_excludes fear_keywords stress_keywords w eq_refl F).
    rewrite (disjoint_excludes fear_keywords confidence_keywords w eq_refl F).
    rewrite (disjoint_excludes fear_keywords calm_keywords w eq_refl F). cbn. lia. }
  destruct (str_in w stress_keywords) eqn:S.
  { rewrite (disjoint_excludes stress_keywords confidence_keywords w eq_refl S).
    rewrite (disjoint_excludes stress_keywords calm_keywords w eq_refl S). cbn. lia. }
  destruct (str_in w confidence_keywords) eqn:C.
  { rewrite (disjoint_excludes confidence_keywords calm_keywords w eq_refl C). cbn. lia. }
  destruct (str_in w calm_keywords); cbn; lia.
Qed.

Lemma emotional_words_le_words (words : list string) :
  (length (fear_words words) + length (stress_words words)
   + length (confidence_words words) + length (calm_words words)
   <= length words)%nat.
Proof.
  unfold fear_words, stress_words, confidence_words, calm_words, matching.
  induction words as [|w words IH]; [cbn; lia|].
  cbn [filter]. pose proof (one_category w) as H1.
  destruct (str_in w fear_keywords), (str_in w stress_keywords),
           (str_in w confidence_keywords), (str_in w calm_keywords);
    cbn [Lookup.b2n length] in *; lia.
Qed.

Lemma capped (l : list string) : (length (firstn 5 l) <= 5)%nat /\
                                 (length (firstn 5 l) <= length l)%nat.
Proof. rewrite length_firstn. lia. Qed.

(** X14.  In every fallback analysis: [self_harm_references] is set exactly
    when [risk_level] is ["high"]; [hopelessness_language] implies
    [risk_level] ["high"]; each of the four emotional word lists holds at most
    five words while [total_emotional_words] counts every match, so it is at
    least the lengths of the lists together and at most the number of words
    of the transcript. *)
Theorem fallback_fields_consistent (transcript : string) :
  let r := get_fallback_analysis transcript in
  (Reference.crisis_field r "self_harm_references" = Some (PBool true)
   <-> Reference.crisis_field r "risk_level" = Some (PStr "high")) /\
  (Reference.crisis_field r "hopelessness_language" = Some (PBool true) ->
   Reference.crisis_field r "risk_level" = Some (PStr "high")) /\
  exists fear stress confidence calm total,
    Lookup.nested r "emotional_language" "fear_words" = Some (strs fear)
    /\ Lookup.nested r "emotional_language" "stress_words" = Some (strs stress)
    /\ Lookup.nested r "emotional_language" "confidence_words" = Some (strs confidence)
    /\ Lookup.nested r "emotional_language" "calm_words" = Some (strs calm)
    /\ Lookup.nested r "emotional_language" "total_emotional_words" = Some (int_of total)
    /\ (length fear <= 5 /\ length stress <= 5
        /\ length confidence <= 5 /\ length calm <= 5)%nat
    /\ (length fear + length stress + length confidence + length calm <= total)%nat
    /\ (total <= length (words_of transcript))%nat.
Proof.
  cbv zeta. set (words := words_of transcript).
  assert (Hself :
    Reference.crisis_field (get_fallback_analysis transcript) "self_harm_references"
    = Some (PBool (0 <? length (crisis_words words))%nat)) by reflexivity.
  assert (Hrisk :
    Reference.crisis_field (get_fallback_analysis transcript) "risk_level"
    = Some (PStr (risk_level words))) by reflexivity.
  assert (Hhope :
    Reference.crisis_field (get_fallback_analysis transcript) "hopelessness_language"
    = Some (PBool (hopelessness_language words))) by reflexivity.
  split; [|split].
  - rewrite Hself, Hrisk. unfold risk_level.
    destruct (0 <? length (crisis_words words))%nat; split; try reflexivity; discriminate.
  - rewrite Hhope, Hrisk. intro H. injection H as H.
    unfold risk_level.
    assert (Hin : exists k, In k words /\ str_in k crisis_keywords = true).
    { unfold hopelessness_language in H. apply orb_true_iff in H.
      destruct H as [H|H]; apply TextFacts.str_in_In in H.
      - exists "hopeless"%string. split; [|reflexivity].
        unfold str_in in H. exact H.
      - exists "worthless"%string. split; [|reflexivity]. exact H. }
    destruct Hin as (k & Hk & Hc).
    assert (Hf : In k (crisis_words words)).
    { unfold crisis_words, matching. apply filter_In. now split. }
    destruct (crisis_words words) as [|x l]; [contradiction | reflexivity].
  - exists (firstn 5 (fear_words words)), (firstn 5 (stress_words words)),
           (firstn 5 (confidence_words words)), (firstn 5 (calm_words words)),
           (length (fear_words words) + length (stress_words words)
            + length (confidence_words words) + length (calm_words words))%nat.
    pose proof (capped (fear_words words)) as [F1 F2].
    pose proof (capped (stress_words words)) as [S1 S2].
    pose proof (capped (confidence_words words)) as [C1 C2].
    pose proof (capped (calm_words words)) as [K1 K2].
    pose proof (emotional_words_le_words words) as Hle.
    repeat split; try reflexivity; try assumption; lia.
Qed.


Lemma fallback_fields_consistent_witness :
  Reference.crisis_field (get_fallback_analysis "I feel hopeless today")
    "hopelessness_language" = Some (PBool true) /\
  Reference.crisis_field (get_fallback_analysis "I feel hopeless today")
    "risk_level" = Some (PStr "high").
Proof.
  assert (H : Reference.crisis_field (get_fallback_analysis "I feel hopeless today")
                "hopelessness_language" = Some (PBool true)) by reflexivity.
  split; [exact H|].
  exact (proj1 (proj2 (fallback_fields_consistent "I feel hopeless today")) H).
Defined.

(** *** The shape of the result of [analyze_transcript] *)

Lemma transcript_result_of_dict (w : LLMWorld) (transcript : string)
    (segments : list Segment) (word_count filler_count : nat) (d : dict) :
  analyze_with_llm w transcript = PDict d ->
  exists res,
    analyze_transcript w transcript segments word_count filler_count = Some res
    /\ map fst res = Lookup.transcript_keys
    /\ Forall (fun m : string * (string * pyval) =>
                 dict_lookup (fst m) res
                 = Some (dict_get (fst (snd m)) (snd (snd m)) d))
              Lookup.llm_mapping
    /\ dict_lookup "filler_word_frequency" res = Some (int_of filler_count).
Proof.
  intro H. unfold analyze_transcript. rewrite H.
  eexists. split; [reflexivity|]. split; [reflexivity|].
  split; [repeat constructor | reflexivity].
Qed.

(** X15.  [analyze_transcript] returns a result exactly when the analysis it
    gets back is a JSON object, and then the result has its nine keys: each of
    the six semantic keys holds what the analysis has under the corresponding
    key, or the empty default where the analysis lacks it, and
    [filler_word_frequency] holds the filler count it was given, not a rate.
    With no API key it always returns a result; on an analysis that is no
    object it raises. *)
Theorem transcript_result_shape (w : LLMWorld) (transcript : string)
    (segments : list Segment) (word_count filler_count : nat) :
  (forall d, analyze_with_llm w transcript = PDict d ->
     exists res,
       analyze_transcript w transcript segments word_count filler_count = Some res
       /\ map fst res = Lookup.transcript_keys
       /\ Forall (fun m : string * (string * pyval) =>
                    dict_lookup (fst m) res
                    = Some (dict_get (fst (snd m)) (snd (snd m)) d))
                 Lookup.llm_mapping
       /\ dict_lookup "filler_word_frequency" res = Some (int_of filler_count)) /\
  ((forall d, analyze_with_llm w transcript <> PDict d) ->
     analyze_transcript w transcript segments word_count filler_count = None) /\
  (api_key w = EmptyString ->
     analyze_transcript w transcript segments word_count filler_count <> None).
Proof.
  split; [|split].
  - intros d H. now apply transcript_result_of_dict.
  - intro H. unfold analyze_transcript.
    destruct (analyze_with_llm w transcript) as [| | | | | |d]; try reflexivity.
    exfalso. now apply (H d).
  - intro Hkey.
    assert (H : analyze_with_llm w transcript = PDict (fallback_dict transcript)).
    { unfold analyze_with_llm. now rewrite Hkey. }
    destruct (transcript_result_of_dict w transcript segments word_count filler_count
                _ H) as (res & Hres & _).
    rewrite Hres. discriminate.
Qed.

Lemma transcript_result_shape_witness :
  (analyze_with_llm (Samples.answering "{}") "I feel hopeless" = PDict [] /\
   exists res,
     analyze_transcript (Samples.answering "{}") "I feel hopeless" [] 3 0 = Some res
     /\ dict_lookup "crisis_keyword_presence" res = Some (PDict [])) /\
  ((forall d, analyze_with_llm (Samples.answering "[]") "I feel hopeless" <> PDict d) /\
   analyze_transcript (Samples.answering "[]") "I feel hopeless" [] 3 0 = None) /\
  (api_key Samples.no_key = EmptyString /\
   analyze_transcript Samples.no_key "I feel hopeless" [] 3 0 <> None).
Proof.
  split; [|split].
  - assert (H : analyze_with_llm (Samples.answering "{}") "I feel hopeless" = PDict [])
      by reflexivity.
    split; [exact H|].
    destruct (proj1 (transcript_result_shape (Samples.answering "{}") "I feel hopeless"
                       [] 3 0) [] H) as (res & Hres & _ & Hall & _).
    exists res. split; [exact Hres|].
    cbn in Hall.
    exact (Forall_inv (Forall_inv_tail (Forall_inv_tail (Forall_inv_tail Hall)))).
  - assert (H : forall d, analyze_with_llm (Samples.answering "[]") "I feel hopeless"
                          <> PDict d) by (intros d; discriminate).
    split; [exact H|].
    exact (proj1 (proj2 (transcript_result_shape (Samples.answering "[]")
                           "I feel hopeless" [] 3 0)) H).
  - assert (H : api_key Samples.no_key = EmptyString) by reflexivity.
    split; [exact H|].
    exact (proj2 (proj2 (transcript_result_shape Samples.no_key "I feel hopeless"
                           [] 3 0)) H).
Defined.

End TranscriptMore.

(** ** Report fusion: confidence and the first participant *)

Module PipelineMore.

Import Py Pipeline NumFacts.






End PipelineMore.

(** ** Step windows: nothing counted twice, percentages per label *)

Module StepwiseMore.

Import Stepwise NumFacts.

Lemma count_between_split (video_data : video_data_t) (a b c : Q) :
  a <= b -> b <= c ->
  (Windows.count_between video_data a b + Windows.count_between video_data b c
   = Windows.count_between video_data a c)%nat.
Proof.
  intros Hab Hbc. unfold Windows.count_between.
  induction (Reference.all_samples video_data) as [|e l IH]; [reflexivity|].
  cbn [filter].
  destruct (in_range a b (entry_time e)) eqn:E1,
           (in_range b c (entry_time e)) eqn:E2,
           (in_range a c (entry_time e)) eqn:E3;
    cbn [length]; try lia; exfalso;
    repeat match goal with
           | H : in_range _ _ _ = true |- _ => apply StepwiseFacts.in_range_iff in H
           | H : in_range _ _ _ = false |- _ =>
               apply not_true_iff_false in H; rewrite StepwiseFacts.in_range_iff in H
           end.
  - lra.
  - lra.
  - apply E3. lra.
  - apply E3. lra.
  - destruct (Qlt_le_dec (entry_time e) b) as [Hlt|Hge].
    + apply E1. lra.
    + apply E2. lra.
Qed.

Lemma windows_sum (video_data : video_data_t) (t : Q) (ts : list Q) :
  Windows.ascending (t :: ts) sentinel ->
  fold_right (fun ab acc => (Windows.count_between video_data (fst ab) (snd ab) + acc)%nat)
             0%nat (Reference.windows (t :: ts))
  = Windows.count_between video_data t sentinel.
Proof.
  revert t. induction ts as [|t' ts IH]; intros t H.
  - cbn. lia.
  - destruct H as [Htt' Hrest].
    change (Reference.windows (t :: t' :: ts))
      with ((t, t') :: Reference.windows (t' :: ts)).
    cbn [fold_right fst snd]. rewrite (IH t' Hrest).
    apply count_between_split; [exact Htt'|].
    clear -Hrest. revert t' Hrest.
    induction ts as [|t2 ts IH2]; intros t' H; [exact H|].
    destruct H as [H1 H2]. specialize (IH2 _ H2). lra.
Qed.

Lemma sample_count_between (video_data : video_data_t) (a b : Q) :
  rm_sample_count (extract_metrics_for_timerange video_data a b)
  = Windows.count_between video_data a b.
Proof.
  unfold extract_metrics_for_timerange, Windows.count_between. cbn [rm_sample_count].
  now rewrite StepwiseFacts.filter_emotions_pooled.
Qed.

(** X18.  When the step times never go back and stay within the sentinel,
    the windows share no sample and miss none from the first step on: their
    sample counts add up to the number of samples with
    [first step <= time < 999999].  Samples before the first step or from the
    sentinel on are in no window. *)
Theorem windows_partition_samples (video_data : video_data_t) (steps : list Step)
    (t : Q) (ts : list Q) :
  map step_time steps = map Some (t :: ts) ->
  Windows.ascending (t :: ts) sentinel ->
  Windows.total_samples (generate_stepwise_metrics video_data steps)
  = Windows.count_between video_data t sentinel.
Proof.
  intros Hts Hasc.
  rewrite <- (windows_sum video_data t ts Hasc).
  rewrite <- (StepwiseFacts.stepwise_bounds video_data steps (t :: ts) Hts).
  pose proof (StepwiseFacts.stepwise_metrics_of_bounds video_data steps) as Hm.
  unfold Windows.total_samples.
  induction (generate_stepwise_metrics video_data steps) as [|w result IH];
    [reflexivity|].
  cbn [map fold_right fst snd].
  rewrite (Forall_inv Hm), sample_count_between.
  rewrite (IH (Forall_inv_tail Hm)). reflexivity.
Qed.

Lemma windows_partition_samples_witness :
  map step_time Samples.two_steps = map Some [0; 10] /\
  Windows.ascending [0; 10] sentinel /\
  Windows.total_samples (generate_stepwise_metrics Samples.four_samples Samples.two_steps)
  = Windows.count_between Samples.four_samples 0 sentinel /\
  Windows.count_between Samples.four_samples 0 sentinel = 4%nat.
Proof.
  assert (H1 : map step_time Samples.two_steps = map Some [0; 10]) by reflexivity.
  assert (H2 : Windows.ascending [0; 10] sentinel).
  { cbn. unfold sentinel. split; lra. }
  split; [exact H1|]. split; [exact H2|]. split; [|reflexivity].
  exact (windows_partition_samples Samples.four_samples Samples.two_steps 0 [10] H1 H2).
Defined.





End StepwiseMore.

(** ** The signalling relay *)

Module ConnMgrFacts.

Import ConnMgr.

Section DictFacts.

Variable V : Type.

Lemma lookup_set_same (k : string) (v : V) (d : sdict V) :
  lookup k (set k v d) = Some v.
Proof.
  induction d as [|[k' v'] d IH]; cbn [set lookup].
  - now rewrite String.eqb_refl.
  - destruct (String.eqb k k') eqn:E; cbn [lookup]; rewrite E; [reflexivity | exact IH].
Qed.

Lemma lookup_set_other (k k' : string) (v : V) (d : sdict V) :
  k <> k' -> lookup k' (set k v d) = lookup k' d.
Proof.
  intro Hne. induction d as [|[k0 v0] d IH]; cbn [set lookup].
  - destruct (String.eqb_spec k' k); [congruence | reflexivity].
  - destruct (String.eqb_spec k k0) as [->|Hk]; cbn [lookup].
    + destruct (String.eqb_spec k' k0); [congruence | reflexivity].
    + destruct (String.eqb k' k0); [reflexivity | exact IH].
Qed.

Lemma lookup_del_other (k k' : string) (d : sdict V) :
  k <> k' -> lookup k' (del k d) = lookup k' d.
Proof.
  intro Hne. induction d as [|[k0 v0] d IH]; cbn [del lookup]; [reflexivity|].
  destruct (String.eqb_spec k k0) as [->|Hk]; cbn [lookup].
  - destruct (String.eqb_spec k' k0); [congruence | reflexivity].
  - destruct (String.eqb k' k0); [reflexivity | exact IH].
Qed.

Lemma lookup_none_keys (k : string) (d : sdict V) :
  lookup k d = None <-> ~ In k (map fst d).
Proof.
  induction d as [|[k' v'] d IH]; cbn [lookup map fst In].
  - tauto.
  - destruct (String.eqb_spec k k') as [->|Hne].
    + split; [discriminate | intro H; exfalso; apply H; now left].
    + rewrite IH. split; [intros H [E|E]; [congruence | tauto] | tauto].
Qed.

Lemma keys_set (k : string) (v : V) (d : sdict V) :
  map fst (set k v d)
  = match lookup k d with Some _ => map fst d | None => map fst d ++ [k] end.
Proof.
  induction d as [|[k' v'] d IH]; cbn [set lookup map fst app]; [reflexivity|].
  destruct (String.eqb k k'); cbn [map fst]; [reflexivity|].
  rewrite IH. now destruct (lookup k d).
Qed.

Lemma set_NoDup (k : string) (v : V) (d : sdict V) :
  NoDup (map fst d) -> NoDup (map fst (set k v d)).
Proof.
  intro H. rewrite keys_set. destruct (lookup k d) eqn:E; [exact H|].
  apply lookup_none_keys in E.
  apply NoDup_app; [exact H | repeat constructor; intros [] |].
  intros x Hx [<-|[]]. contradiction.
Qed.

Lemma set_Forall (P : string * V -> Prop) (k : string) (v : V) (d : sdict V) :
  P (k, v) -> Forall P d -> Forall P (set k v d).
Proof.
  intros Hv. induction 1 as [|[k' v'] d Hh Ht IH]; cbn [set].
  - repeat constructor. exact Hv.
  - destruct (String.eqb_spec k k') as [<-|Hne]; constructor; assumption.
Qed.

Lemma set_set (k : string) (v v0 : V) (d : sdict V) :
  set k v (set k v0 d) = set k v d.
Proof.
  induction d as [|[k' v'] d IH]; cbn [set].
  - now rewrite String.eqb_refl.
  - destruct (String.eqb k k') eqn:E; cbn [set]; rewrite E; [reflexivity|].
    now rewrite IH.
Qed.

Lemma del_set (k : string) (v : V) (d : sdict V) : del k (set k v d) = del k d.
Proof.
  induction d as [|[k' v'] d IH]; cbn [set del].
  - now rewrite String.eqb_refl.
  - destruct (String.eqb k k') eqn:E; cbn [del]; rewrite E; [reflexivity|].
    now rewrite IH.
Qed.

Lemma del_incl (k : string) (d : sdict V) : incl (del k d) d.
Proof.
  induction d as [|[k' v'] d IH]; cbn [del]; [apply incl_refl|].
  destruct (String.eqb k k'); [apply incl_tl, incl_refl|].
  intros x [<-|Hx]; [now left | right; now apply IH].
Qed.

Lemma del_NoDup (k : string) (d : sdict V) :
  NoDup (map fst d) -> NoDup (map fst (del k d)).
Proof.
  induction d as [|[k' v'] d IH]; cbn [del map fst]; intro H; [exact H|].
  apply NoDup_cons_iff in H. destruct H as [Hn Hd].
  destruct (String.eqb k k'); [exact Hd|].
  cbn [map fst]. constructor; [|now apply IH].
  intro Hin. apply Hn. apply in_map_iff in Hin. destruct Hin as (x & <- & Hx).
  apply in_map, (del_incl k d), Hx.
Qed.

Lemma del_Forall (P : string * V -> Prop) (k : string) (d : sdict V) :
  Forall P d -> Forall P (del k d).
Proof.
  intro H. apply Forall_forall. intros x Hx.
  exact (proj1 (Forall_forall _ _) H x (del_incl k d x Hx)).
Qed.

Lemma lookup_Forall (P : string * V -> Prop) (k : string) (v : V) (d : sdict V) :
  Forall P d -> lookup k d = Some v -> P (k, v).
Proof.
  induction 1 as [|[k' v'] d Hh Ht IH]; cbn [lookup]; [discriminate|].
  destruct (String.eqb_spec k k') as [->|Hne].
  - intro E. injection E as <-. exact Hh.
  - exact IH.
Qed.

End DictFacts.

Lemma remove_first_length (x : socket) (l : list socket) :
  (length (remove_first x l) <= length l)%nat.
Proof.
  induction l as [|y l IH]; cbn [remove_first length]; [lia|].
  destruct (x =? y)%nat; cbn [length]; lia.
Qed.

Lemma connect_well_formed (ws : socket) (sid : string) (st : state) :
  well_formed st -> well_formed (snd (connect ws sid st)).
Proof.
  intros [Hnd Hall]. unfold connect, connections.
  destruct (lookup sid st) as [l|] eqn:E.
  - rewrite E. pose proof (lookup_Forall _ _ sid l st Hall E) as Hl. cbn [snd] in Hl.
    destruct (Nat.leb_spec 2 (length l)); cbn [snd]; [now split|].
    split; [now apply set_NoDup|].
    apply set_Forall; [|exact Hall]. cbn [snd]. rewrite length_app. cbn [length]. lia.
  - rewrite lookup_set_same. cbn [length Nat.leb snd app]. rewrite set_set.
    split; [now apply set_NoDup|].
    apply set_Forall; [|exact Hall]. cbn. lia.
Qed.

Lemma disconnect_well_formed (ws : socket) (sid : string) (st : state) :
  well_formed st -> well_formed (disconnect ws sid st).
Proof.
  intros [Hnd Hall]. unfold disconnect.
  destruct (lookup sid st) as [l|] eqn:E; [|now split].
  pose proof (lookup_Forall _ _ sid l st Hall E) as Hl. cbn [snd] in Hl.
  set (l' := if mem ws l then remove_first ws l else l).
  assert (Hlen : (length l' <= 2)%nat).
  { unfold l'. pose proof (remove_first_length ws l). destruct (mem ws l); lia. }
  destruct l' as [|x l''] eqn:El.
  - rewrite del_set. split; [now apply del_NoDup | now apply del_Forall].
  - split; [now apply set_NoDup|].
    apply set_Forall; [|exact Hall]. cbn [snd length] in *. lia.
Qed.

Lemma after_well_formed (requests : list request) : well_formed (after requests).
Proof.
  unfold after.
  assert (H0 : well_formed []) by (split; constructor).
  revert H0. generalize (@nil (string * list socket)).
  induction requests as [|r requests IH]; intros st Hst; [exact Hst|].
  cbn [fold_left]. apply IH. destruct r as [ws sid|ws sid]; cbn [serve].
  - now apply connect_well_formed.
  - now apply disconnect_well_formed.
Qed.

(** X20.  Whatever clients connect and disconnect, in whatever order, every
    session the relay knows has one or two connections and is known once.  A
    connection is refused exactly when the session already has two; a refusal
    changes nothing, an admission appends the socket to its session; and
    neither connecting to nor disconnecting from one session touches another
    session's connections. *)
Theorem relay_sessions_hold_one_or_two :
  (forall requests, well_formed (after requests)) /\
  (forall (st : state) (ws : socket) (sid : string),
     well_formed st ->
     (fst (connect ws sid st) = false <-> length (connections sid st) = 2%nat) /\
     (fst (connect ws sid st) = false -> snd (connect ws sid st) = st) /\
     (fst (connect ws sid st) = true ->
      connections sid (snd (connect ws sid st)) = connections sid st ++ [ws])) /\
  (forall (st : state) (ws : socket) (sid sid' : string),
     sid <> sid' ->
     connections sid' (snd (connect ws sid st)) = connections sid' st /\
     connections sid' (disconnect ws sid st) = connections sid' st).
Proof.
  split; [exact after_well_formed|]. split.
  - intros st ws sid [Hnd Hall]. unfold connect, connections.
    destruct (lookup sid st) as [l|] eqn:E.
    + rewrite E. pose proof (lookup_Forall _ _ sid l st Hall E) as Hl. cbn [snd] in Hl.
      destruct (Nat.leb_spec 2 (length l)); cbn [fst snd].
      * repeat split; try reflexivity; try discriminate; lia.
      * rewrite lookup_set_same.
        repeat split; try reflexivity; try discriminate; lia.
    + rewrite lookup_set_same. cbn [length Nat.leb fst snd app].
      rewrite lookup_set_same.
      repeat split; try reflexivity; try discriminate.
  - intros st ws sid sid' Hne. split.
    + unfold connect, connections.
      destruct (lookup sid st) as [l|] eqn:E.
      * rewrite E. destruct (2 <=? length l)%nat; cbn [snd]; [reflexivity|].
        now rewrite lookup_set_other.
      * rewrite lookup_set_same. cbn [length Nat.leb snd].
        now rewrite !lookup_set_other.
    + unfold disconnect, connections.
      destruct (lookup sid st) as [l|] eqn:E; [|reflexivity].
      destruct (if mem ws l then remove_first ws l else l).
      * now rewrite lookup_del_other, lookup_set_other.
      * now rewrite lookup_set_other.
Qed.


Lemma relay_sessions_hold_one_or_two_witness :
  well_formed Cases.full_session /\
  length (connections "s1" Cases.full_session) = 2%nat /\
  fst (connect 3%nat "s1" Cases.full_session) = false /\
  snd (connect 3%nat "s1" Cases.full_session) = Cases.full_session /\
  "s1"%string <> "s2"%string /\
  connections "s2" (snd (connect 3%nat "s1" Cases.full_session))
  = connections "s2" Cases.full_session.
Proof.
  assert (Hwf : well_formed Cases.full_session).
  { split; [repeat constructor; intros [] | repeat constructor; cbn; lia]. }
  assert (Hlen : length (connections "s1" Cases.full_session) = 2%nat) by reflexivity.
  assert (Hne : "s1"%string <> "s2"%string) by discriminate.
  destruct (proj1 (proj2 relay_sessions_hold_one_or_two) Cases.full_session 3%nat
              "s1"%string Hwf) as (Hiff & Hsame & _).
  pose proof (proj2 Hiff Hlen) as Hf.
  split; [exact Hwf|]. split; [exact Hlen|]. split; [exact Hf|].
  split; [exact (Hsame Hf)|]. split; [exact Hne|].
  exact (proj1 (proj2 (proj2 relay_sessions_hold_one_or_two) Cases.full_session 3%nat
                  "s1"%string "s2"%string Hne)).
Defined.

(** X21.  In every state the relay can reach, a relayed message goes to the
    other connections of the sender's session and to nobody else: never back
    to the sender, never into another session; when the sender is connected
    to the session at most one peer receives it.  [broadcast_to_all] reaches
    all (at most two) connections of the session, and nobody in a session the
    relay does not know. *)
Theorem relay_reaches_only_the_peer (requests : list request) (sid : string)
    (sender : socket) :
  let st := after requests in
  (forall r, In r (broadcast sid sender st)
             <-> In r (connections sid st) /\ r <> sender) /\
  (In sender (connections sid st) -> (length (broadcast sid sender st) <= 1)%nat) /\
  broadcast_to_all sid st = connections sid st /\
  (length (broadcast_to_all sid st) <= 2)%nat /\
  (lookup sid st = None ->
   broadcast sid sender st = [] /\ broadcast_to_all sid st = []).
Proof.
  cbv zeta. destruct (after_well_formed requests) as [_ Hall].
  unfold broadcast, broadcast_to_all, connections.
  destruct (lookup sid (after requests)) as [l|] eqn:E.
  - pose proof (lookup_Forall _ _ sid l _ Hall E) as Hl. cbn [snd] in Hl.
    split; [|split; [|split; [reflexivity|split; [lia | discriminate]]]].
    + intro r. rewrite filter_In, negb_true_iff, Nat.eqb_neq. reflexivity.
    + intro Hin.
      assert (Hlt : (length (filter (fun c => negb (c =? sender)%nat) l) < length l)%nat).
      { clear -Hin. induction l as [|y l IH]; [contradiction|].
        cbn [filter]. destruct (y =? sender)%nat eqn:Ey; cbn [negb length].
        - apply Nat.lt_succ_r, filter_length_le.
        - apply Nat.eqb_neq in Ey.
          destruct Hin as [Heq|Hin]; [congruence|].
          apply -> Nat.succ_lt_mono. exact (IH Hin). }
      unfold socket in *. lia.
  - split; [intro r; cbn; tauto|].
    split; [intros []|]. split; [reflexivity|]. split; [cbn; lia | now split].
Qed.

Lemma relay_reaches_only_the_peer_witness :
  In 2%nat (connections "s1" (after Cases.busy_relay)) /\
  (length (broadcast "s1" 2%nat (after Cases.busy_relay)) <= 1)%nat /\
  broadcast "s1" 2%nat (after Cases.busy_relay) = [] /\
  broadcast_to_all "s2" (after Cases.busy_relay) = [4%nat].
Proof.
  assert (H : In 2%nat (connections "s1" (after Cases.busy_relay))).
  { vm_compute. now left. }
  split; [exact H|]. split.
  - exact (proj1 (proj2 (relay_reaches_only_the_peer Cases.busy_relay "s1" 2%nat)) H).
  - split; reflexivity.
Defined.

End ConnMgrFacts.

(** * Durations *)

Module DurationFacts.
Import Duration.











End DurationFacts.
